(** * voice-koereq: the project-automation scripts under [scripts/]

    A shallow embedding of the six Python scripts and the properties their
    specification states about them.

    - Python [int] is [Z]; Python [float] is the kernel's binary64
      ([PrimFloat.float]); [str] is [string] (the UTF-8 bytes of the text).
    - A YAML mapping or a Python [dict] read by key is a [gmap]; a JSON
      object that is written out keeps its key order, so it is an
      association list.
    - Console output, subprocess calls, sleeps and file writes are events
      appended to a trace; what the outside world answers (which files
      exist, how each subprocess ends, what the clock and the keyboard
      give) is read from a [world] record.
    - An exception is the [Raise] branch of a result; [try]/[except] is
      [try_except]. *)

From Stdlib Require Import ZArith String Ascii List DecimalString.
From Stdlib Require Import Floats.PrimFloat Floats.FloatOps Floats.SpecFloat.
From stdpp Require Import gmap strings list.

Local Open Scope Z_scope.

(** ** The Python runtime the scripts rely on *)

Module Py.

(** [str(n)] for an [int]. *)
Definition str_int (z : Z) : string := NilZero.string_of_int (Z.to_int z).

(** [s * n] for a string [s]. *)
Fixpoint str_repeat (s : string) (n : nat) : string :=
  match n with
  | O => EmptyString
  | S k => s +:+ str_repeat s k
  end.

(** [format(z, 'Nd')]: right-aligned in a field of [width] characters. *)
Definition format_d (width : nat) (z : Z) : string :=
  let digits := str_int z in
  str_repeat " " (width - String.length digits) +:+ digits.

(** [sep.join(parts)]. *)
Definition join (sep : string) (parts : list string) : string :=
  String.concat sep parts.

(** [repr] of a list of [int]s, as an f-string shows it. *)
Definition repr_int_list (l : list Z) : string :=
  "[" +:+ join ", " (map str_int l) +:+ "]".

(** [float(z)]: the nearest binary64, ties to even.  CPython's [int / int]
    converts both operands this way and divides the doubles whenever both
    fit in 53 bits, which every list length does. *)
Definition float_of_int (z : Z) : float :=
  SF2Prim (binary_normalize prec emax z 0 false).

(** Nearest integer to [n / d] for [d > 0], ties to even. *)
Definition round_half_even (n d : Z) : Z :=
  let q := n / d in
  let r := n mod d in
  match 2 * r ?= d with
  | Lt => q
  | Gt => q + 1
  | Eq => if Z.even q then q else q + 1
  end.

(** [format(x, '.1f')] for a [float]: the exact binary value rounded to one
    decimal place. *)
Definition format_1f (x : float) : string :=
  match Prim2SF x with
  | S754_zero s => (if s then "-" else "") +:+ "0.0"
  | S754_infinity s => if s then "-inf" else "inf"
  | S754_nan => "nan"
  | S754_finite s m e =>
      let n := Z.pos m * 10 in
      let tenths := if 0 <=? e then n * 2 ^ e else round_half_even n (2 ^ (- e)) in
      (if s then "-" else "")
        +:+ str_int (tenths / 10) +:+ "." +:+ str_int (tenths mod 10)
  end.

(** A number as Python has it at run time: [progress] is an [int] on one
    branch and a [float] on the other. *)
Inductive num :=
| Int (z : Z)
| Float (x : float).

(** [format(v, '.1f')]; an [int] is converted to [float] first. *)
Definition format_1f_num (v : num) : string :=
  match v with
  | Int z => format_1f (float_of_int z)
  | Float x => format_1f x
  end.

(** ASCII white space, as [str.strip()] removes it (the scripts strip the
    URL line printed by the CLI and the parts of a comma-separated
    argument). *)
Definition is_space (c : ascii) : bool :=
  let n := nat_of_ascii c in
  ((9 <=? n)%nat && (n <=? 13)%nat) || ((28 <=? n)%nat && (n <=? 32)%nat).

Fixpoint lstrip_chars (l : list ascii) : list ascii :=
  match l with
  | c :: rest => if is_space c then lstrip_chars rest else l
  | [] => []
  end.

Definition strip (s : string) : string :=
  string_of_list_ascii
    (rev (lstrip_chars (rev (lstrip_chars (list_ascii_of_string s))))).

(** [s.split(sep)] for a one-character separator. *)
Fixpoint split_on (sep : ascii) (s : string) : list string :=
  match s with
  | EmptyString => [EmptyString]
  | String c rest =>
      let parts := split_on sep rest in
      if Ascii.eqb c sep then EmptyString :: parts
      else match parts with
           | p :: ps => String c p :: ps
           | [] => [String c EmptyString]
           end
  end.

(** [s.lower()] on the ASCII letters. *)
Definition lower_char (c : ascii) : ascii :=
  let n := nat_of_ascii c in
  if (65 <=? n)%nat && (n <=? 90)%nat then ascii_of_nat (n + 32) else c.

Fixpoint lower (s : string) : string :=
  match s with
  | EmptyString => EmptyString
  | String c rest => String (lower_char c) (lower rest)
  end.

(** [x in l] for a list of strings. *)
Definition str_in (x : string) (l : list string) : bool :=
  existsb (String.eqb x) l.

(** What [subprocess.run] hands back when the child ran to its end. *)
Record CompletedProcess := {
  returncode : Z;
  stdout : string;
  stderr : string
}.

(** The exceptions the scripts can meet. *)
Inductive exn :=
| KeyError (key : string)
| ZeroDivisionError
| CalledProcessError (cmd : list string) (p : CompletedProcess)
| OSError (msg : string)
| YAMLError
| JSONDecodeError
| ValueError
| EOFError
| SystemExit (code : Z).

(** [isinstance(e, Exception)]: everything but [SystemExit]. *)
Definition is_Exception (e : exn) : bool :=
  match e with
  | SystemExit _ => false
  | _ => true
  end.

(** [str(e)], as [print(f"{e}")] shows an exception. *)
Definition str_exn (e : exn) : string :=
  match e with
  | KeyError key => "'" +:+ key +:+ "'"
  | ZeroDivisionError => "division by zero"
  | CalledProcessError cmd p =>
      "Command '[" +:+ join ", " (map (fun a => "'" +:+ a +:+ "'") cmd)
        +:+ "]' returned non-zero exit status " +:+ str_int (returncode p) +:+ "."
  | OSError msg => msg
  | YAMLError => "YAMLError"
  | JSONDecodeError => "JSONDecodeError"
  | ValueError => "ValueError"
  | EOFError => ""
  | SystemExit code => str_int code
  end.

(** The outcome of a function call: a value or a raised exception. *)
Inductive result (A : Type) :=
| Ok (a : A)
| Raise (e : exn).
Arguments Ok {A} a.
Arguments Raise {A} e.

(** A JSON document, as [json.dump] receives it. *)
#[warnings="-register-all"]
Inductive json :=
| JInt (z : Z)
| JFloat (x : float)
| JStr (s : string)
| JList (items : list json)
| JDict (members : list (string * json)).

Definition json_of_num (v : num) : json :=
  match v with
  | Int z => JInt z
  | Float x => JFloat x
  end.

End Py.
Export Py.

(** ** The records the scripts read *)

(** A feature descriptor: one YAML mapping under [features], read by key
    ([id], [name], [description], [type], [priority]). *)
Abbreviation feature := (gmap string string).

(** The parsed specification file: a mapping whose [features] entry lists
    the feature descriptors. *)
Abbreviation spec_doc := (gmap string (list feature)).

(** One label object of an issue, [{"name": ...}]. *)
Record label := { name : string }.

(** An issue as the CLI lists it; the scripts read these three members. *)
Record issue := {
  number : Z;
  title : string;
  labels : list label
}.

(** A pull request as the CLI lists it. *)
Record pull_request := {
  pr_number : Z;
  pr_title : string;
  pr_state : string
}.

(** ** The world a run meets, and the trace it leaves *)

(** How one [subprocess.run] ends: the child ran and exited, or it could
    not be started at all. *)
Inductive proc_outcome :=
| Exited (p : CompletedProcess)
| SpawnFailed (msg : string).

Record world := {
  (** [Path(p).exists()] *)
  path_exists : string -> bool;
  (** [yaml.safe_load] of voice-koereq-spec.yaml, or what opening and
      parsing it raises *)
  spec_file : result spec_doc;
  (** the outcome of the [n]-th subprocess call of the run, given its
      command line *)
  proc : nat -> list string -> proc_outcome;
  (** [json.loads] on the output of [gh issue list] and [gh pr list];
      [None] when the text does not parse *)
  loads_issues : string -> option (list issue);
  loads_prs : string -> option (list pull_request);
  (** [datetime.now().strftime('%Y-%m-%d %H:%M:%S')] *)
  now : string;
  (** [sys.argv] *)
  argv : list string;
  (** [int(s)]; [None] when it raises [ValueError] *)
  parse_int : string -> option Z;
  (** the line [input()] reads; [None] at end of input *)
  stdin_line : option string
}.

Inductive event :=
| EPrint (line : string)
| ERun (cmd : list string) (captured : bool) (out : proc_outcome)
| ESleep (seconds : Z)
| EInput (prompt : string)
| EWriteFile (path : string) (doc : json).

(** The trace so far and the number of subprocess calls made. *)
Record state := {
  events : list event;
  nruns : nat
}.

Definition start : state := {| events := []; nruns := 0 |}.

(** A computation: reads the world, extends the trace, returns or
    raises. *)
Definition M (A : Type) : Type := world -> state -> result A * state.

Definition ret {A} (a : A) : M A := fun _ s => (Ok a, s).

Definition raise {A} (e : exn) : M A := fun _ s => (Raise e, s).

Definition bind {A B} (m : M A) (k : A -> M B) : M B :=
  fun w s =>
    match m w s with
    | (Ok a, s') => k a w s'
    | (Raise e, s') => (Raise e, s')
    end.

Declare Scope py_scope.
Delimit Scope py_scope with py.
Notation "'let!' x ':=' m 'in' k" := (bind m (fun x => k))
  (at level 10, x pattern, m at level 100, k at level 200) : py_scope.
Notation "m ';;' k" := (bind m (fun _ => k))
  (at level 100, k at level 200, right associativity) : py_scope.
Local Open Scope py_scope.

(** [try: body except <handles>: handler]. *)
Definition try_except {A} (body : M A) (handles : exn -> bool) (handler : exn -> M A) : M A :=
  fun w s =>
    match body w s with
    | (Ok a, s') => (Ok a, s')
    | (Raise e, s') => if handles e then handler e w s' else (Raise e, s')
    end.

(** [for x in l: body x]. *)
Fixpoint for_each {A} (l : list A) (body : A -> M unit) : M unit :=
  match l with
  | [] => ret tt
  | x :: rest => body x ;; for_each rest body
  end.

Definition ask {A} (f : world -> A) : M A := fun w s => (Ok (f w), s).

Definition emit (e : event) : M unit :=
  fun _ s => (Ok tt, {| events := events s ++ [e]; nruns := nruns s |}).

Definition print (line : string) : M unit := emit (EPrint line).

Definition sleep (seconds : Z) : M unit := emit (ESleep seconds).

(** [d[key]]. *)
Definition getitem {V} (d : gmap string V) (key : string) : M V :=
  match d !! key with
  | Some v => ret v
  | None => raise (KeyError key)
  end.

(** [subprocess.run(cmd, capture_output=captured, text=True, check=check)]. *)
Definition subprocess_run (cmd : list string) (captured check : bool) : M CompletedProcess :=
  fun w s =>
    let out := proc w (nruns s) cmd in
    let s' := {| events := events s ++ [ERun cmd captured out]; nruns := S (nruns s) |} in
    match out with
    | Exited p =>
        if check && negb (returncode p =? 0)
        then (Raise (CalledProcessError cmd p), s')
        else (Ok p, s')
    | SpawnFailed msg => (Raise (OSError msg), s')
    end.

Definition is_CalledProcessError (e : exn) : bool :=
  match e with
  | CalledProcessError _ _ => true
  | _ => false
  end.

(** [e.stderr] in an [except subprocess.CalledProcessError as e] clause. *)
Definition exn_stderr (e : exn) : string :=
  match e with
  | CalledProcessError _ p => stderr p
  | _ => EmptyString
  end.

(** [a / b] on [int]s. *)
Definition truediv (a b : Z) : M float :=
  if b =? 0 then raise ZeroDivisionError
  else ret (float_of_int a / float_of_int b)%float.

(** [len(l)]. *)
Definition len {A} (l : list A) : Z := Z.of_nat (length l).

(** [with open(path, 'w') as f: json.dump(doc, f, indent=2)]. *)
Definition json_dump_to (path : string) (doc : json) : M unit :=
  emit (EWriteFile path doc).

(** [input(prompt)]. *)
Definition input (prompt : string) : M string :=
  emit (EInput prompt) ;;
  let! line := ask stdin_line in
  match line with
  | Some l => ret l
  | None => raise EOFError
  end.

(** Running a script from a fresh state. *)
Definition run {A} (m : M A) (w : world) : result A * list event :=
  let (r, s) := m w start in (r, events s).

Definition outcome {A} (m : M A) (w : world) : result A := fst (run m w).

Definition trace {A} (m : M A) (w : world) : list event := snd (run m w).

(** ** scripts/check_progress.py *)

Module check_progress.

(** The path probed for a feature id. *)
Definition view_path (id : string) : string :=
  "ios/VoiceKoereq/Views/" +:+ id +:+ "View.swift".

(** The loop over [spec['features']], with the two lists it appends to. *)
Fixpoint scan (features : list feature) (implemented not_implemented : list string)
  : M (list string * list string) :=
  match features with
  | [] => ret (implemented, not_implemented)
  | feature :: rest =>
      let! id := getitem feature "id" in
      let! found := ask (fun w => path_exists w (view_path id)) in
      if found
      then scan rest (implemented ++ [id]) not_implemented
      else scan rest implemented (not_implemented ++ [id])
  end.

(** [(done / total) * 100 if total > 0 else 0]. *)
Definition percentage (done total : Z) : M num :=
  if 0 <? total
  then let! q := truediv done total in ret (Float (q * 100)%float)
  else ret (Int 0).

(** The [progress_data] dictionary. *)
Definition progress_data (total done : Z) (progress : num)
    (implemented not_implemented : list string) : json :=
  JDict [ ("total_features", JInt total);
          ("implemented", JInt done);
          ("progress_percentage", json_of_num progress);
          ("implemented_features", JList (map JStr implemented));
          ("pending_features", JList (map JStr not_implemented)) ].

Definition check_progress : M unit :=
  let! loaded := ask spec_file in
  let! spec := match loaded with Ok d => ret d | Raise e => raise e end in
  let! features := getitem spec "features" in
  let! (implemented, not_implemented) := scan features [] [] in
  let! features' := getitem spec "features" in
  let total := len features' in
  let done := len implemented in
  let! progress := percentage done total in
  print ("📊 実装進捗: " +:+ str_int done +:+ "/" +:+ str_int total
           +:+ " (" +:+ format_1f_num progress +:+ "%)") ;;
  print ("✅ 実装済み: " +:+ join ", " implemented) ;;
  print ("⏳ 未実装: " +:+ join ", " not_implemented) ;;
  match not_implemented with
  | next :: _ => print ("::set-output name=next_feature::" +:+ next)
  | [] => print "::set-output name=next_feature::"
  end ;;
  json_dump_to "progress.json"
    (progress_data total done progress implemented not_implemented).

Definition main : M unit := check_progress.

End check_progress.

(** ** scripts/create_feature_issues.py *)

Module create_feature_issues.

(** The issue text, an f-string over the five fields. *)
Definition issue_body (feature_id name description feature_type priority : string) : string :=
  "## 概要
"
  +:+ description
  +:+ "

## 機能詳細
- **機能ID**: "
  +:+ feature_id
  +:+ "
- **機能名**: "
  +:+ name
  +:+ "
- **タイプ**: "
  +:+ feature_type
  +:+ "
- **優先度**: "
  +:+ priority
  +:+ "

## 実装要件

### iOS
- SwiftUI + Combine
- iOS 16+ 対応
- MVVM アーキテクチャ
- エラーハンドリング
- 日本語UI

### Android
- Jetpack Compose + Kotlin
- Material Design 3
- Hilt DI
- Coroutines + Flow
- 日本語UI

### 共有ロジック
- Kotlin Multiplatform
- expect/actual パターン
- 共通API設計

## 受け入れ条件
- [ ] iOS実装完了
- [ ] Android実装完了
- [ ] テストコード作成
- [ ] コードレビュー完了
- [ ] 日本語UI確認

---
*このIssueは自動生成されました*".

Definition issue_title (feature_id name : string) : string :=
  "[" +:+ feature_id +:+ "] " +:+ name.

Definition issue_labels (feature_type priority : string) : string :=
  "feature," +:+ feature_type +:+ "," +:+ priority.

Definition issue_cmd (title body labels : string) : list string :=
  [ "gh"; "issue"; "create";
    "--title"; title;
    "--body"; body;
    "--label"; labels ].

(** One turn of the loop. *)
Definition create_issue (feature : feature) : M unit :=
  let! feature_id := getitem feature "id" in
  let! name := getitem feature "name" in
  let! description := getitem feature "description" in
  let! feature_type := getitem feature "type" in
  let! priority := getitem feature "priority" in
  let body := issue_body feature_id name description feature_type priority in
  let title := issue_title feature_id name in
  let cmd := issue_cmd title body (issue_labels feature_type priority) in
  try_except
    (let! result := subprocess_run cmd true true in
     let issue_url := strip (stdout result) in
     print ("✅ Created: " +:+ title) ;;
     print ("   URL: " +:+ issue_url))
    is_CalledProcessError
    (fun e =>
       print ("❌ Failed to create: " +:+ title) ;;
       print ("   Error: " +:+ exn_stderr e)).

Definition create_feature_issues : M unit :=
  let! loaded := ask spec_file in
  let! spec := match loaded with Ok d => ret d | Raise e => raise e end in
  let features := default [] (spec !! "features") in
  for_each features create_issue.

Definition main : M unit := create_feature_issues.

End create_feature_issues.

(** ** scripts/create_issues_simple.py *)

Module create_issues_simple.

(** The two features the script carries in its own text. *)
Definition features : list feature :=
  [ {[ "id" := "F7"; "name" := "サマリー生成";
       "description" := "会話内容の要約とレポート生成";
       "type" := "ai_service"; "priority" := "medium" ]};
    {[ "id" := "F8"; "name" := "オフライン";
       "description" := "オフライン時のデータ保存と同期機能";
       "type" := "infrastructure"; "priority" := "low" ]} ].

Definition issue_body (feature_id name description feature_type priority : string) : string :=
  "## 概要
"
  +:+ description
  +:+ "

## 機能詳細
- **機能ID**: "
  +:+ feature_id
  +:+ "
- **機能名**: "
  +:+ name
  +:+ "
- **タイプ**: "
  +:+ feature_type
  +:+ "
- **優先度**: "
  +:+ priority
  +:+ "

## 実装要件

### iOS
- SwiftUI + Combine
- iOS 16+ 対応
- MVVM アーキテクチャ
- エラーハンドリング
- 日本語UI

### Android
- Jetpack Compose + Kotlin
- Material Design 3
- Hilt DI
- Coroutines + Flow
- 日本語UI

### 共有ロジック
- Kotlin Multiplatform
- expect/actual パターン
- 共通API設計

## 受け入れ条件
- [ ] iOS実装完了
- [ ] Android実装完了
- [ ] テストコード作成
- [ ] コードレビュー完了
- [ ] 日本語UI確認

---
*このIssueは自動生成されました*".

Definition create_issue (feature : feature) : M unit :=
  let! feature_id := getitem feature "id" in
  let! name := getitem feature "name" in
  let! description := getitem feature "description" in
  let! feature_type := getitem feature "type" in
  let! priority := getitem feature "priority" in
  let body := issue_body feature_id name description feature_type priority in
  let title := "[" +:+ feature_id +:+ "] " +:+ name in
  let cmd := [ "gh"; "issue"; "create";
               "--title"; title;
               "--body"; body;
               "--label"; "feature" ] in
  try_except
    (let! result := subprocess_run cmd true true in
     let issue_url := strip (stdout result) in
     print ("✅ Created: " +:+ title) ;;
     print ("   URL: " +:+ issue_url))
    is_CalledProcessError
    (fun e =>
       print ("❌ Failed to create: " +:+ title) ;;
       print ("   Error: " +:+ exn_stderr e)).

Definition create_feature_issues : M unit :=
  for_each features create_issue.

Definition main : M unit := create_feature_issues.

End create_issues_simple.

(** ** scripts/create_issues.py *)

Module create_issues.

(** [[l['name'] for l in issue['labels']]]. *)
Definition label_names (i : issue) : list string := map name (labels i).

(** The three lists the dashboard sorts the issues into. *)
Record buckets := {
  not_started : list issue;
  ready_to_implement : list issue;
  implemented : list issue
}.

Definition no_buckets : buckets :=
  {| not_started := []; ready_to_implement := []; implemented := [] |}.

(** One turn of the sorting loop. *)
Definition place (b : buckets) (i : issue) : buckets :=
  let labels := label_names i in
  if str_in "implemented" labels then
    {| not_started := not_started b;
       ready_to_implement := ready_to_implement b;
       implemented := implemented b ++ [i] |}
  else if str_in "ready-to-implement" labels then
    {| not_started := not_started b;
       ready_to_implement := ready_to_implement b ++ [i];
       implemented := implemented b |}
  else
    {| not_started := not_started b ++ [i];
       ready_to_implement := ready_to_implement b;
       implemented := implemented b |}.

(** The whole loop. *)
Definition sort_issues (issues : list issue) : buckets :=
  fold_left place issues no_buckets.

Definition issue_line (i : issue) : string :=
  "  #" +:+ format_d 3 (number i) +:+ " " +:+ title i.

(** [if l: body]. *)
Definition when_nonempty {A} (l : list A) (body : M unit) : M unit :=
  match l with
  | [] => ret tt
  | _ :: _ => body
  end.

Definition issue_list_cmd : list string :=
  [ "gh"; "issue"; "list"; "--json"; "number,title,labels,state,createdAt,url";
    "--limit"; "50" ].

Definition pr_list_cmd : list string :=
  [ "gh"; "pr"; "list"; "--json"; "number,title,state,createdAt"; "--limit"; "5" ].

(** The statistics block. *)
Definition show_statistics (issues : list issue) (b : buckets) : M unit :=
  let total := len issues in
  print "📊 統計" ;;
  print ("  総Issue数: " +:+ str_int total) ;;
  (let! share := truediv (len (implemented b)) total in
   print ("  ✅ 実装済み: " +:+ str_int (len (implemented b))
            +:+ " (" +:+ format_1f (share * 100)%float +:+ "%)")) ;;
  print ("  🔄 実装中: " +:+ str_int (len (ready_to_implement b))) ;;
  print ("  ⏳ 未着手: " +:+ str_int (len (not_started b))) ;;
  print "".

(** The three detail blocks. *)
Definition show_details (b : buckets) : M unit :=
  when_nonempty (not_started b)
    (print "⏳ 未着手のIssue:" ;;
     for_each (not_started b) (fun i => print (issue_line i))) ;;
  print "" ;;
  when_nonempty (ready_to_implement b)
    (print "🔄 実装中のIssue:" ;;
     for_each (ready_to_implement b) (fun i => print (issue_line i))) ;;
  print "" ;;
  when_nonempty (implemented b)
    (print "✅ 実装済みのIssue:" ;;
     for_each (take 5 (implemented b)) (fun i => print (issue_line i)) ;;
     if 5 <? len (implemented b)
     then print ("  ... 他 " +:+ str_int (len (implemented b) - 5) +:+ " 件")
     else ret tt) ;;
  print "".

(** The pull-request block. *)
Definition show_prs : M unit :=
  print "📝 最新のPR:" ;;
  (let! pr_result := subprocess_run pr_list_cmd true false in
   if returncode pr_result =? 0 then
     let! decode := ask loads_prs in
     match decode (stdout pr_result) with
     | None => raise JSONDecodeError
     | Some prs =>
         for_each prs (fun pr =>
           let state_icon := if String.eqb (pr_state pr) "OPEN" then "🟢" else "🟣" in
           print ("  " +:+ state_icon +:+ " PR #" +:+ format_d 3 (pr_number pr)
                    +:+ " " +:+ pr_title pr))
     end
   else ret tt) ;;
  print "".

(** The suggested next actions. *)
Definition show_actions (b : buckets) : M unit :=
  print "💡 次のアクション:" ;;
  match not_started b with
  | first :: _ =>
      print "  1. 未着手のIssueに ready-to-implement ラベルを付けて実装開始" ;;
      print ("     gh issue edit " +:+ str_int (number first)
               +:+ " --add-label ready-to-implement")
  | [] => ret tt
  end ;;
  match ready_to_implement b with
  | first :: _ =>
      print "  2. 実装中のIssueの進捗確認" ;;
      print ("     gh issue view " +:+ str_int (number first))
  | [] => ret tt
  end ;;
  print "  3. 全Issueを一括実装" ;;
  print "     gh workflow run '🚀 Batch Issue Implementation'" ;;
  print "" ;;
  print (str_repeat "=" 60).

Definition show_dashboard : M unit :=
  print (str_repeat "=" 60) ;;
  print "🎤 voice-koereq Issue Dashboard" ;;
  print (str_repeat "=" 60) ;;
  (let! clock := ask now in print ("📅 " +:+ clock)) ;;
  print "" ;;
  let! result := subprocess_run issue_list_cmd true false in
  if negb (returncode result =? 0) then
    print "❌ Failed to fetch issues"
  else
    let! decode := ask loads_issues in
    match decode (stdout result) with
    | None => raise JSONDecodeError
    | Some issues =>
        let b := sort_issues issues in
        show_statistics issues b ;;
        show_details b ;;
        show_prs ;;
        show_actions b
    end.

(** The three milestones of [create_milestone], as (title, description,
    due_on). *)
Definition milestones : list (string * string * string) :=
  [ ("MVP", "最小限の動作可能な製品", "2024-12-31");
    ("Beta", "ベータ版リリース", "2025-01-15");
    ("Production", "本番リリース", "2025-01-31") ].

Definition create_milestone : M unit :=
  for_each milestones (fun '(ms_title, ms_description, ms_due_on) =>
    let cmd := [ "gh"; "api"; "repos/:owner/:repo/milestones";
                 "-f"; "title=" +:+ ms_title;
                 "-f"; "description=" +:+ ms_description;
                 "-f"; "due_on=" +:+ ms_due_on ] in
    subprocess_run cmd false false ;;
    print ("✅ Created milestone: " +:+ ms_title)).

Definition main : M unit :=
  let! args := ask argv in
  match args with
  | _ :: arg1 :: _ =>
      if String.eqb arg1 "milestone" then create_milestone else show_dashboard
  | _ => show_dashboard
  end.

End create_issues.

(** ** scripts/sync_implementations.py *)

Module sync_implementations.

(** (branch, feature id, feature name). *)
Definition claude_branches : list (string * string * string) :=
  [ ("claude/issue-2-20250602_100108", "F1", "起動画面");
    ("claude/issue-3-20250602_101312", "F2", "音声録音");
    ("claude/issue-4-20250602_101312", "F3", "文字起こし");
    ("claude/issue-5-20250602_101323", "F4", "AI医療アシスタント") ].

Definition cmd_ios (branch feature_id : string) : list string :=
  [ "git"; "checkout"; "origin/" +:+ branch; "--";
    "ios/VoiceKoereq/**/" +:+ feature_id +:+ "*";
    "ios/VoiceKoereqTests/" +:+ feature_id +:+ "*" ].

Definition cmd_android (branch feature_id : string) : list string :=
  [ "git"; "checkout"; "origin/" +:+ branch; "--";
    "android/**/" +:+ feature_id +:+ "*" ].

(** One turn of the loop. *)
Definition sync_branch (entry : string * string * string) : M unit :=
  let '(branch, feature_id, feature_name) := entry in
  print ("
🔄 Syncing " +:+ feature_id +:+ " (" +:+ feature_name +:+ ") from " +:+ branch) ;;
  try_except
    (let! result := subprocess_run (cmd_ios branch feature_id) true false in
     (if returncode result =? 0 then print "  ✅ iOS files synced" else ret tt) ;;
     let! result := subprocess_run (cmd_android branch feature_id) true false in
     if returncode result =? 0 then print "  ✅ Android files synced" else ret tt)
    is_Exception
    (fun e => print ("  ❌ Error syncing " +:+ feature_id +:+ ": " +:+ str_exn e)).

Definition sync_claude_implementations : M unit :=
  let! result := subprocess_run [ "git"; "branch"; "--show-current" ] true false in
  let original_branch := strip (stdout result) in
  for_each claude_branches sync_branch ;;
  subprocess_run [ "git"; "add"; "." ] false false ;;
  subprocess_run [ "git"; "status"; "--short" ] false false ;;
  print "
📋 Sync complete! Review changes and commit if needed.".

Definition main : M unit := sync_claude_implementations.

End sync_implementations.

(** ** scripts/trigger_claude_batch.py *)

Module trigger_claude_batch.

Definition comment : string :=
  "@claude Please implement this feature as described above. Focus on creating production-ready code for both iOS and Android platforms.".

Definition comment_cmd (issue_num : Z) : list string :=
  [ "gh"; "issue"; "comment"; str_int issue_num; "--body"; comment ].

(** One turn of the loop; [issue_numbers] is the whole list, whose length
    the turn tests. *)
Definition trigger_one (issue_numbers : list Z) (issue_num : Z) : M unit :=
  print ("🤖 Triggering Claude on Issue #" +:+ str_int issue_num) ;;
  try_except
    (let! result := subprocess_run (comment_cmd issue_num) true true in
     print ("✅ Comment added to Issue #" +:+ str_int issue_num) ;;
     if 1 <? len issue_numbers then
       print "   ⏳ Waiting 30 seconds before next trigger..." ;;
       sleep 30
     else ret tt)
    is_CalledProcessError
    (fun e =>
       print ("❌ Failed to comment on Issue #" +:+ str_int issue_num
                +:+ ": " +:+ exn_stderr e)).

Definition trigger_claude_on_issues (issue_numbers : list Z) : M unit :=
  for_each issue_numbers (trigger_one issue_numbers).

Definition feature_labels : list string :=
  [ "feature"; "ai_service"; "ui"; "audio_capture"; "backend" ].

(** The test an issue passes to count as unimplemented. *)
Definition is_unimplemented (i : issue) : bool :=
  let labels := map name (labels i) in
  negb (str_in "implemented" labels)
    && existsb (fun l => str_in l feature_labels) labels.

Definition issue_list_cmd : list string :=
  [ "gh"; "issue"; "list"; "--json"; "number,title,labels"; "--limit"; "50" ].

Definition get_unimplemented_issues : M (list Z) :=
  try_except
    (let! result := subprocess_run issue_list_cmd true true in
     let! decode := ask loads_issues in
     match decode (stdout result) with
     | None => raise JSONDecodeError
     | Some issues => ret (map number (filter (fun i => is_unimplemented i = true) issues))
     end)
    is_CalledProcessError
    (fun e =>
       print ("❌ Failed to fetch issues: " +:+ exn_stderr e) ;;
       ret []).

(** [[int(x.strip()) for x in arg.split(',')]]. *)
Fixpoint parse_numbers (int : string -> option Z) (parts : list string) : M (list Z) :=
  match parts with
  | [] => ret []
  | x :: rest =>
      match int (strip x) with
      | None => raise ValueError
      | Some n => let! ns := parse_numbers int rest in ret (n :: ns)
      end
  end.

Definition main : M unit :=
  let! args := ask argv in
  let! issue_numbers :=
    match args with
    | _ :: arg1 :: _ =>
        let! int := ask parse_int in
        parse_numbers int (split_on "," arg1)
    | _ =>
        let! issue_numbers := get_unimplemented_issues in
        match issue_numbers with
        | [] =>
            print "⚠️  No unimplemented issues found" ;;
            raise (SystemExit 0)
        | _ :: _ =>
            print ("📋 Found " +:+ str_int (len issue_numbers)
                     +:+ " unimplemented issues: " +:+ repr_int_list issue_numbers) ;;
            let! confirm := input "🤔 Trigger Claude on all these issues? (y/N): " in
            if negb (String.eqb (lower confirm) "y") then
              print "❌ Cancelled" ;;
              raise (SystemExit 0)
            else ret issue_numbers
        end
    end in
  trigger_claude_on_issues issue_numbers.

End trigger_claude_batch.

(** * Reading a trace *)

(** The lines printed, in order. *)
Definition printed (t : list event) : list string :=
  flat_map (fun e => match e with EPrint line => [line] | _ => [] end) t.

(** The files written, in order, with the document each received. *)
Definition file_writes (t : list event) : list (string * json) :=
  flat_map (fun e => match e with EWriteFile path doc => [(path, doc)] | _ => [] end) t.

(** The command lines of the subprocess calls, in order. *)
Definition commands (t : list event) : list (list string) :=
  flat_map (fun e => match e with ERun cmd _ _ => [cmd] | _ => [] end) t.

(** A member of a JSON object. *)
Fixpoint member (key : string) (members : list (string * json)) : option json :=
  match members with
  | [] => None
  | (k, v) :: rest => if String.eqb k key then Some v else member key rest
  end.

(** The keys of a JSON object, in order. *)
Definition keys (doc : json) : list string :=
  match doc with
  | JDict members => map fst members
  | _ => []
  end.

(** A member of the progress report, the document written to
    progress.json. *)
Definition report_member (key : string) (t : list event) : option json :=
  match file_writes t with
  | [(_, JDict members)] => member key members
  | _ => None
  end.



(** * The specification's terms for the progress checker *)

(** Feature [f] of the specification file has this id. *)
Definition has_id (f : feature) (id : string) : Prop := f !! "id" = Some id.

(** The iOS view file of the feature with this id exists. *)
Definition view_exists (w : world) (id : string) : bool :=
  path_exists w ("ios/VoiceKoereq/Views/" +:+ id +:+ "View.swift").

(** The ids, in file order, of the features that have a view file, and of
    those that have none. *)
Definition implemented_ids (w : world) (ids : list string) : list string :=
  List.filter (view_exists w) ids.

Definition pending_ids (w : world) (ids : list string) : list string :=
  List.filter (fun id => negb (view_exists w id)) ids.

(** M/N×100 for M implemented features out of N, computed as Python
    computes it on two [int]s (a binary64 division, then a binary64
    product); 0 when N = 0. *)
Definition spec_percentage (m n : nat) : num :=
  match n with
  | O => Int 0
  | S _ => Float (float_of_int (Z.of_nat m) / float_of_int (Z.of_nat n) * 100)%float
  end.


(** The lines the checker prints and the file it writes, for [total]
    features of which those in [imp] are implemented and those in [pend]
    are not. *)
Definition report (total : nat) (imp pend : list string) : list event :=
  let progress := spec_percentage (length imp) total in
  [ EPrint ("📊 実装進捗: " +:+ str_int (len imp) +:+ "/" +:+ str_int (Z.of_nat total)
              +:+ " (" +:+ format_1f_num progress +:+ "%)");
    EPrint ("✅ 実装済み: " +:+ join ", " imp);
    EPrint ("⏳ 未実装: " +:+ join ", " pend);
    EPrint ("::set-output name=next_feature::" +:+ match pend with next :: _ => next | [] => EmptyString end);
    EWriteFile "progress.json"
      (check_progress.progress_data (Z.of_nat total) (len imp) progress imp pend) ].



(** * The specification's terms for the dashboard *)

Inductive bucket :=
| Implemented
| ReadyToImplement
| NotStarted.

(** The issue carries this label. *)
Definition has_label (l : string) (i : issue) : bool :=
  existsb (fun lbl => String.eqb l (name lbl)) (labels i).

(** The bucket an issue belongs to by its labels: 'implemented' before
    'ready-to-implement', and not-started for the rest. *)
Definition bucket_of (i : issue) : bucket :=
  if has_label "implemented" i then Implemented
  else if has_label "ready-to-implement" i then ReadyToImplement
  else NotStarted.

Definition bucket_eqb (a b : bucket) : bool :=
  match a, b with
  | Implemented, Implemented => true
  | ReadyToImplement, ReadyToImplement => true
  | NotStarted, NotStarted => true
  | _, _ => false
  end.

(** The issues of a list that belong to a bucket, in list order. *)
Definition in_bucket (b : bucket) (issues : list issue) : list issue :=
  List.filter (fun i => bucket_eqb (bucket_of i) b) issues.

(** A line of the statistics block the dashboard prints after sorting. *)
Definition is_summary_line (line : string) : bool :=
  String.prefix "📊 統計" line
  || String.prefix "  総Issue数: " line
  || String.prefix "  ✅ 実装済み: " line
  || String.prefix "  🔄 実装中: " line
  || String.prefix "  ⏳ 未着手: " line.

(** A line of the statistics block that reports a bucket. *)
Definition is_bucket_line (line : string) : bool :=
  String.prefix "  ✅ 実装済み: " line
  || String.prefix "  🔄 実装中: " line
  || String.prefix "  ⏳ 未着手: " line.

(** C10 as it is worded: on an empty issue list the dashboard raises
    [ZeroDivisionError] and no line of the summary is printed. *)
Definition empty_list_claim (w : world) : Prop :=
  outcome create_issues.show_dashboard w = Raise ZeroDivisionError
  /\ existsb is_summary_line (printed (trace create_issues.show_dashboard w)) = false.

(** The statistics block of the dashboard for a fetched list: the total,
    then the sizes of the three buckets. *)
Definition statistics_lines (issues : list issue) : list string :=
  [ "📊 統計";
    "  総Issue数: " +:+ str_int (len issues);
    "  ✅ 実装済み: " +:+ str_int (len (in_bucket Implemented issues))
      +:+ " (" +:+ format_1f
                     (float_of_int (len (in_bucket Implemented issues))
                      / float_of_int (len issues) * 100)%float
      +:+ "%)";
    "  🔄 実装中: " +:+ str_int (len (in_bucket ReadyToImplement issues));
    "  ⏳ 未着手: " +:+ str_int (len (in_bucket NotStarted issues));
    "" ].

(** A block of the details: a header and one line per issue of the
    bucket, and nothing for an empty bucket. *)
Definition bucket_block (header : string) (bucket : list issue) : list string :=
  match bucket with
  | [] => []
  | _ :: _ => header :: map create_issues.issue_line bucket
  end.

(** The block of the implemented issues shows the first five and counts
    the others. *)
Definition implemented_block (bucket : list issue) : list string :=
  match bucket with
  | [] => []
  | _ :: _ =>
      "✅ 実装済みのIssue:"
        :: map create_issues.issue_line (take 5 bucket)
        ++ (if 5 <? len bucket
            then [ "  ... 他 " +:+ str_int (len bucket - 5) +:+ " 件" ]
            else [])
  end.

(** The detail blocks of the dashboard for a fetched list: the issues of
    each bucket, by bucket. *)
Definition details_lines (issues : list issue) : list string :=
  bucket_block "⏳ 未着手のIssue:" (in_bucket NotStarted issues)
    ++ [ EmptyString ]
    ++ bucket_block "🔄 実装中のIssue:" (in_bucket ReadyToImplement issues)
    ++ [ EmptyString ]
    ++ implemented_block (in_bucket Implemented issues)
    ++ [ EmptyString ].

(** * The specification's terms for the loops over subprocess calls *)

(** Every subprocess of the run is started and exits (with whatever
    status): a failure is a non-zero exit status. *)
Definition exits (w : world) : Prop :=
  forall n cmd, exists p, proc w n cmd = Exited p.



(** The line is not one of the scripts' failure messages. *)
Definition not_failure_line (line : string) : Prop := String.prefix "❌" line = false.


(** The trace of a loop whose turns each make [calls] subprocess calls,
    given what a turn that starts at call number [i] leaves. *)
Fixpoint loop_trace {B} (calls : nat) (turn : world -> nat -> B -> list event)
    (w : world) (i : nat) (items : list B) : list event :=
  match items with
  | [] => []
  | x :: rest => turn w i x ++ loop_trace calls turn w (calls + i) rest
  end.

(** A feature descriptor: id, name, description, type, priority. *)
Record descriptor := {
  d_id : string;
  d_name : string;
  d_description : string;
  d_type : string;
  d_priority : string
}.

(** The YAML mapping [f] carries the five fields of [d]. *)
Definition describes (f : feature) (d : descriptor) : Prop :=
  f !! "id" = Some (d_id d)
  /\ f !! "name" = Some (d_name d)
  /\ f !! "description" = Some (d_description d)
  /\ f !! "type" = Some (d_type d)
  /\ f !! "priority" = Some (d_priority d).

(** [part] occurs in [whole]. *)
Definition embeds (part whole : string) : Prop :=
  exists before after, whole = before +:+ part +:+ after.

(** What the two issue creators print after a call. *)
Definition created_or_failed (title : string) (out : proc_outcome) : list event :=
  match out with
  | Exited p =>
      if returncode p =? 0
      then [ EPrint ("✅ Created: " +:+ title);
             EPrint ("   URL: " +:+ strip (stdout p)) ]
      else [ EPrint ("❌ Failed to create: " +:+ title);
             EPrint ("   Error: " +:+ stderr p) ]
  | SpawnFailed _ => []
  end.

(** The command line of the YAML-driven issue creator for a descriptor. *)
Definition create_cmd (d : descriptor) : list string :=
  [ "gh"; "issue"; "create";
    "--title"; "[" +:+ d_id d +:+ "] " +:+ d_name d;
    "--body"; create_feature_issues.issue_body
                (d_id d) (d_name d) (d_description d) (d_type d) (d_priority d);
    "--label"; "feature," +:+ d_type d +:+ "," +:+ d_priority d ].

Definition create_turn (w : world) (i : nat) (d : descriptor) : list event :=
  ERun (create_cmd d) true (proc w i (create_cmd d))
    :: created_or_failed ("[" +:+ d_id d +:+ "] " +:+ d_name d) (proc w i (create_cmd d)).




(** One turn of the batch trigger over the list [all]. *)
Definition trigger_turn (all : list Z) (w : world) (i : nat) (issue_num : Z) : list event :=
  let cmd := trigger_claude_batch.comment_cmd issue_num in
  EPrint ("🤖 Triggering Claude on Issue #" +:+ str_int issue_num)
    :: ERun cmd true (proc w i cmd)
    :: match proc w i cmd with
       | Exited p =>
           if returncode p =? 0
           then EPrint ("✅ Comment added to Issue #" +:+ str_int issue_num)
                  :: (if 1 <? len all
                      then [ EPrint "   ⏳ Waiting 30 seconds before next trigger...";
                             ESleep 30 ]
                      else [])
           else [ EPrint ("❌ Failed to comment on Issue #" +:+ str_int issue_num
                            +:+ ": " +:+ stderr p) ]
       | SpawnFailed _ => []
       end.

(** The call succeeded. *)
Definition succeeded (out : proc_outcome) : bool :=
  match out with
  | Exited p => returncode p =? 0
  | SpawnFailed _ => false
  end.

(** One turn of the sync loop: two calls, each answered by a line only
    when it exits with status 0. *)
Definition sync_turn (w : world) (i : nat) (entry : string * string * string) : list event :=
  let '(branch, feature_id, feature_name) := entry in
  let ios := sync_implementations.cmd_ios branch feature_id in
  let android := sync_implementations.cmd_android branch feature_id in
  [ EPrint ("
🔄 Syncing " +:+ feature_id +:+ " (" +:+ feature_name +:+ ") from " +:+ branch);
    ERun ios true (proc w i ios) ]
  ++ (if succeeded (proc w i ios) then [ EPrint "  ✅ iOS files synced" ] else [])
  ++ [ ERun android true (proc w (S i) android) ]
  ++ (if succeeded (proc w (S i) android) then [ EPrint "  ✅ Android files synced" ] else []).

(** One turn of the milestone loop. *)
Definition milestone_turn (w : world) (i : nat) (ms : string * string * string) : list event :=
  let '(ms_title, ms_description, ms_due_on) := ms in
  let cmd := [ "gh"; "api"; "repos/:owner/:repo/milestones";
               "-f"; "title=" +:+ ms_title;
               "-f"; "description=" +:+ ms_description;
               "-f"; "due_on=" +:+ ms_due_on ]%string in
  [ ERun cmd false (proc w i cmd); EPrint ("✅ Created milestone: " +:+ ms_title) ].

(** * The specification's terms for the pacing of the batch trigger *)

(** What matters of a trace for pacing: the subprocess calls and the
    sleeps, in order. *)
Inductive pace :=
| Call
| Pause (seconds : Z).

Definition pacing (t : list event) : list pace :=
  flat_map (fun e =>
              match e with
              | ERun _ _ _ => [ Call ]
              | ESleep seconds => [ Pause seconds ]
              | _ => []
              end) t.

(** [calls] calls with one 30-second sleep between each two successive
    ones and nowhere else. *)
Fixpoint paced_between (calls : nat) : list pace :=
  match calls with
  | O => []
  | S O => [ Call ]
  | S k => Call :: Pause 30 :: paced_between k
  end.

(** C4 as it is worded. *)
Definition sleep_between_claim (w : world) (issue_numbers : list Z) : Prop :=
  pacing (trace (trigger_claude_batch.trigger_claude_on_issues issue_numbers) w)
  = paced_between (length issue_numbers).

(** The calls for the issue numbers from call number [i] on, with a
    30-second sleep after each call that succeeded and is followed by
    another call. *)
Fixpoint paced_after_success (w : world) (i : nat) (issue_numbers : list Z) : list pace :=
  match issue_numbers with
  | [] => []
  | n :: rest =>
      match rest with
      | [] => [ Call ]
      | _ :: _ =>
          Call :: (if succeeded (proc w i (trigger_claude_batch.comment_cmd n))
                   then [ Pause 30 ] else [])
            ++ paced_after_success w (S i) rest
      end
  end.

(** A pacing up to and including its last call. *)
Fixpoint up_to_last_call (p : list pace) : list pace :=
  match p with
  | [] => []
  | Call :: rest => Call :: up_to_last_call rest
  | Pause seconds :: rest =>
      match up_to_last_call rest with
      | [] => []
      | kept => Pause seconds :: kept
      end
  end.

(** * The specification's terms for what a script writes *)

(** The event is not a file write. *)
Definition no_write (e : event) : Prop :=
  match e with
  | EWriteFile _ _ => False
  | _ => True
  end.

(** The event writes no file other than [path]. *)
Definition writes_only (path : string) (e : event) : Prop :=
  match e with
  | EWriteFile p _ => p = path
  | _ => True
  end.

(** Whatever the world and the state it starts from, the computation only
    appends events that satisfy [P]. *)
Definition emits (P : event -> Prop) {A} (m : M A) : Prop :=
  forall w s, exists extra, events (snd (m w s)) = events s ++ extra /\ Forall P extra.

(** * Sample worlds *)

Definition exited (code : Z) (out err : string) : proc_outcome :=
  Exited {| returncode := code; stdout := out; stderr := err |}.

Definition sample_features : list feature :=
  [ {[ "id" := "F1"; "name" := "Launch"; "description" := "Launch screen";
       "type" := "ui"; "priority" := "high" ]};
    {[ "id" := "F2"; "name" := "Record"; "description" := "Voice recording";
       "type" := "audio_capture"; "priority" := "high" ]};
    {[ "id" := "F3"; "name" := "Transcribe"; "description" := "Speech to text";
       "type" := "ai_service"; "priority" := "medium" ]} ].

Definition sample_issues : list issue :=
  [ {| number := 2; title := "[F1] Launch";
       labels := [ {| name := "feature" |}; {| name := "implemented" |};
                   {| name := "ready-to-implement" |} ] |};
    {| number := 3; title := "[F2] Record";
       labels := [ {| name := "feature" |}; {| name := "ready-to-implement" |} ] |};
    {| number := 4; title := "[F3] Transcribe"; labels := [ {| name := "feature" |} ] |} ].

(** Three features, the first with its view file; the first subprocess
    call of a run exits with status 1, the later ones with 0. *)
Definition sample_world : world := {|
  path_exists := String.eqb "ios/VoiceKoereq/Views/F1View.swift";
  spec_file := Ok {[ "features" := sample_features ]};
  proc := fun n _ =>
    match n with
    | O => exited 1 "" "HTTP 502"
    | S _ => exited 0 "https://github.com/NikoToRA/voice-koereq/issues/7
" ""
    end;
  loads_issues := fun _ => Some sample_issues;
  loads_prs := fun _ => Some [];
  now := "2025-06-02 10:13:12";
  argv := [ "script.py" ];
  parse_int := fun _ => None;
  stdin_line := Some "y"
|}.


(** The issue list is fetched and is empty. *)
Definition no_issues_world : world := {|
  path_exists := fun _ => false;
  spec_file := Ok ∅;
  proc := fun _ _ => exited 0 "[]" "";
  loads_issues := fun _ => Some [];
  loads_prs := fun _ => Some [];
  now := "2025-06-02 10:13:12";
  argv := [ "create_issues.py" ];
  parse_int := fun _ => None;
  stdin_line := None
|}.

(** Every subprocess exits with status 1. *)
Definition failing_world : world := {|
  path_exists := fun _ => false;
  spec_file := Ok {[ "features" := sample_features ]};
  proc := fun _ _ => exited 1 "" "fatal: unable to access remote";
  loads_issues := fun _ => None;
  loads_prs := fun _ => None;
  now := "2025-06-02 10:13:12";
  argv := [ "script.py" ];
  parse_int := fun _ => None;
  stdin_line := None
|}.

Definition sample_descriptors : list descriptor :=
  [ {| d_id := "F1"; d_name := "Launch"; d_description := "Launch screen";
       d_type := "ui"; d_priority := "high" |};
    {| d_id := "F2"; d_name := "Record"; d_description := "Voice recording";
       d_type := "audio_capture"; d_priority := "high" |};
    {| d_id := "F3"; d_name := "Transcribe"; d_description := "Speech to text";
       d_type := "ai_service"; d_priority := "medium" |} ].

(** Three issues are listed, the pull-request listing exits with status 1. *)
Definition no_prs_world : world := {|
  path_exists := fun _ => false;
  spec_file := Ok ∅;
  proc := fun n _ =>
    match n with
    | O => exited 0 "[...]" ""
    | S _ => exited 1 "" "HTTP 502"
    end;
  loads_issues := fun _ => Some sample_issues;
  loads_prs := fun _ => None;
  now := "2025-06-02 10:13:12";
  argv := [ "create_issues.py" ];
  parse_int := fun _ => None;
  stdin_line := None
|}.

(** * Further terms: error paths and whole-script behaviour *)




(** The CLI answers the first call and cannot be started for the second. *)
Definition cli_vanishes_world : world := {|
  path_exists := fun _ => false;
  spec_file := Ok {[ "features" := sample_features ]};
  proc := fun n _ =>
    match n with
    | O => exited 0 "https://github.com/NikoToRA/voice-koereq/issues/7" ""
    | S _ => SpawnFailed "[Errno 2] No such file or directory: 'gh'"
    end;
  loads_issues := fun _ => None;
  loads_prs := fun _ => None;
  now := "2025-06-02 10:13:12";
  argv := [ "script.py" ];
  parse_int := fun _ => None;
  stdin_line := None
|}.

(** The eleven git command lines of the sync script, in order. *)
Definition sync_commands : list (list string) :=
  [ [ "git"; "branch"; "--show-current" ];
    [ "git"; "checkout"; "origin/claude/issue-2-20250602_100108"; "--";
      "ios/VoiceKoereq/**/F1*"; "ios/VoiceKoereqTests/F1*" ];
    [ "git"; "checkout"; "origin/claude/issue-2-20250602_100108"; "--"; "android/**/F1*" ];
    [ "git"; "checkout"; "origin/claude/issue-3-20250602_101312"; "--";
      "ios/VoiceKoereq/**/F2*"; "ios/VoiceKoereqTests/F2*" ];
    [ "git"; "checkout"; "origin/claude/issue-3-20250602_101312"; "--"; "android/**/F2*" ];
    [ "git"; "checkout"; "origin/claude/issue-4-20250602_101312"; "--";
      "ios/VoiceKoereq/**/F3*"; "ios/VoiceKoereqTests/F3*" ];
    [ "git"; "checkout"; "origin/claude/issue-4-20250602_101312"; "--"; "android/**/F3*" ];
    [ "git"; "checkout"; "origin/claude/issue-5-20250602_101323"; "--";
      "ios/VoiceKoereq/**/F4*"; "ios/VoiceKoereqTests/F4*" ];
    [ "git"; "checkout"; "origin/claude/issue-5-20250602_101323"; "--"; "android/**/F4*" ];
    [ "git"; "add"; "." ];
    [ "git"; "status"; "--short" ] ]%string.

(** git answers the first call and cannot be started for the second. *)
Definition git_vanishes_world : world := {|
  path_exists := fun _ => false;
  spec_file := Ok ∅;
  proc := fun n _ =>
    match n with
    | O => exited 0 "main" ""
    | S _ => SpawnFailed "[Errno 2] No such file or directory: 'git'"
    end;
  loads_issues := fun _ => None;
  loads_prs := fun _ => None;
  now := "2025-06-02 10:13:12";
  argv := [ "sync_implementations.py" ];
  parse_int := fun _ => None;
  stdin_line := None
|}.

(** The durations of the sleeps of a trace, in order. *)
Definition sleeps (t : list event) : list Z :=
  flat_map (fun e => match e with ESleep seconds => [ seconds ] | _ => [] end) t.

(** The number of subprocess calls of a trace that exited with status 0. *)
Definition successful_calls (t : list event) : nat :=
  length (List.filter (fun e => match e with ERun _ _ out => succeeded out | _ => false end) t).

(** The issue carries one of the labels that mark a feature issue for the
    batch trigger. *)
Definition has_feature_label (i : issue) : bool :=
  existsb (fun l => has_label l i) trigger_claude_batch.feature_labels.

(** Three open issues are listed, and the user answers "n". *)
Definition declining_world : world := {|
  path_exists := fun _ => false;
  spec_file := Ok ∅;
  proc := fun _ _ => exited 0 "[...]" "";
  loads_issues := fun _ => Some sample_issues;
  loads_prs := fun _ => Some [];
  now := "2025-06-02 10:13:12";
  argv := [ "trigger_claude_batch.py" ];
  parse_int := fun _ => None;
  stdin_line := Some "n"
|}.

(** The issue numbers are given on the command line, one of them
    misspelt; [int] reads decimal digits only. *)
Definition misspelt_argument_world : world := {|
  path_exists := fun _ => false;
  spec_file := Ok ∅;
  proc := fun _ _ => exited 0 "" "";
  loads_issues := fun _ => None;
  loads_prs := fun _ => None;
  now := "2025-06-02 10:13:12";
  argv := [ "trigger_claude_batch.py"; "7, x8 ,9" ];
  parse_int := fun s =>
    if String.eqb s "7" then Some 7
    else if String.eqb s "8" then Some 8
    else if String.eqb s "9" then Some 9
    else None;
  stdin_line := None
|}.

(** The same with the three numbers spelt right. *)
Definition argument_world : world := {|
  path_exists := fun _ => false;
  spec_file := Ok ∅;
  proc := fun _ _ => exited 0 "" "";
  loads_issues := fun _ => None;
  loads_prs := fun _ => None;
  now := "2025-06-02 10:13:12";
  argv := [ "trigger_claude_batch.py"; "7, 8 ,9" ];
  parse_int := fun s =>
    if String.eqb s "7" then Some 7
    else if String.eqb s "8" then Some 8
    else if String.eqb s "9" then Some 9
    else None;
  stdin_line := None
|}.

(** In world [w], from whatever state, the computation returns after
    printing lines that satisfy [P], and does nothing else. *)
Definition prints_only (P : string -> Prop) (w : world) {A} (m : M A) : Prop :=
  forall s, exists a lines,
    m w s = (Ok a, {| events := events s ++ map EPrint lines; nruns := nruns s |})
    /\ Forall P lines.
(** * Theorems *)

(** ** The monad *)

Lemma getitem_Some {V} (d : gmap string V) key v w s :
  d !! key = Some v -> getitem d key w s = (Ok v, s).
Proof. intros H. unfold getitem. rewrite H. reflexivity. Qed.

Lemma bind_Ok {A B} (m : M A) (k : A -> M B) w s a s' :
  m w s = (Ok a, s') -> bind m k w s = k a w s'.
Proof. intros H. unfold bind. rewrite H. reflexivity. Qed.

(** ** scripts/check_progress.py *)

Section CheckProgress.

Variable w : world.

Lemma view_path_spec id :
  path_exists w (check_progress.view_path id) = view_exists w id.
Proof. reflexivity. Qed.

(** The loop appends the ids with a view file to one list and the others
    to the other, in file order, and leaves the trace alone. *)
Lemma scan_spec features ids :
  Forall2 has_id features ids ->
  forall imp pend s,
    check_progress.scan features imp pend w s
    = (Ok (imp ++ implemented_ids w ids, pend ++ pending_ids w ids), s).
Proof.
  induction 1 as [|f id features ids Hid _ IH]; intros imp pend s.
  - cbn. rewrite !app_nil_r. reflexivity.
  - cbn [check_progress.scan].
    rewrite (bind_Ok _ _ _ _ _ _ (getitem_Some _ _ _ w s Hid)).
    unfold bind at 1, ask at 1. rewrite view_path_spec.
    unfold implemented_ids, pending_ids. cbn [List.filter].
    destruct (view_exists w id); cbn [negb]; rewrite IH.
    + rewrite <- app_assoc. reflexivity.
    + rewrite <- app_assoc. reflexivity.
Qed.

Lemma percentage_spec (m n : nat) s :
  check_progress.percentage (Z.of_nat m) (Z.of_nat n) w s
  = (Ok (spec_percentage m n), s).
Proof.
  unfold check_progress.percentage, spec_percentage.
  destruct n as [|n].
  - reflexivity.
  - replace (0 <? Z.of_nat (S n)) with true by (symmetry; apply Z.ltb_lt; lia).
    unfold bind, truediv.
    replace (Z.of_nat (S n) =? 0) with false by (symmetry; apply Z.eqb_neq; lia).
    reflexivity.
Qed.

(** A run on a well-formed specification file returns and leaves exactly
    the report. *)
Lemma check_progress_run spec features ids :
  spec_file w = Ok spec ->
  spec !! "features" = Some features ->
  Forall2 has_id features ids ->
  run check_progress.main w
  = (Ok tt, report (length features) (implemented_ids w ids) (pending_ids w ids)).
Proof.
  intros Hfile Hfeat Hids.
  unfold run, check_progress.main, check_progress.check_progress.
  unfold bind at 1, ask at 1. rewrite Hfile.
  unfold bind at 1, ret at 1.
  rewrite (bind_Ok _ _ _ _ _ _ (getitem_Some _ _ _ w start Hfeat)).
  rewrite (bind_Ok _ _ _ _ _ _ (scan_spec _ _ Hids [] [] start)).
  cbn [app].
  rewrite (bind_Ok _ _ _ _ _ _ (getitem_Some _ _ _ w start Hfeat)).
  unfold len at 1 2.
  rewrite (bind_Ok _ _ _ _ _ _ (percentage_spec _ _ start)).
  unfold report. destruct (pending_ids w ids); reflexivity.
Qed.

End CheckProgress.

Lemma filter_sublist {A} (f : A -> bool) (l : list A) : sublist (List.filter f l) l.
Proof.
  induction l as [|x l IH]; cbn.
  - constructor.
  - destruct (f x); now constructor.
Qed.

Lemma filter_split_length {A} (f : A -> bool) (l : list A) :
  (length (List.filter f l) + length (List.filter (fun x => negb (f x)) l))%nat = length l.
Proof.
  induction l as [|x l IH]; cbn; [reflexivity|].
  destruct (f x); cbn; lia.
Qed.

(** C1: for a specification file whose features list has N entries, M of
    them with an existing view file ios/VoiceKoereq/Views/<id>View.swift,
    the checker returns and the percentage it reports, in progress.json
    and on its first printed line, is M/N×100 (the binary64 quotient times
    100, as Python evaluates it); with N = 0 it reports 0. *)
Theorem progress_percentage_M_over_N (w : world) spec features ids :
  spec_file w = Ok spec ->
  spec !! "features" = Some features ->
  Forall2 has_id features ids ->
  outcome check_progress.main w = Ok tt
  /\ report_member "progress_percentage" (trace check_progress.main w)
     = Some (json_of_num (spec_percentage (length (implemented_ids w ids)) (length features)))
  /\ head (printed (trace check_progress.main w))
     = Some ("📊 実装進捗: " +:+ str_int (len (implemented_ids w ids)) +:+ "/"
               +:+ str_int (len features) +:+ " ("
               +:+ format_1f_num (spec_percentage (length (implemented_ids w ids)) (length features))
               +:+ "%)")
  /\ (length features = 0%nat ->
      report_member "progress_percentage" (trace check_progress.main w) = Some (JInt 0)).
Proof.
  intros Hfile Hfeat Hids.
  unfold outcome, trace. rewrite (check_progress_run w spec features ids Hfile Hfeat Hids).
  repeat split.
  intros HN. rewrite HN. reflexivity.
Qed.

Lemma progress_percentage_M_over_N_sample :
  report_member "progress_percentage" (trace check_progress.main sample_world)
  = Some (JFloat (float_of_int 1 / float_of_int 3 * 100)%float).
Proof.
  apply (progress_percentage_M_over_N sample_world
           {[ "features" := sample_features ]} sample_features [ "F1"; "F2"; "F3" ]%string).
  - reflexivity.
  - reflexivity.
  - repeat constructor.
Defined.

(** The order of the two operations matters in binary64: for one feature
    out of three, (1/3)×100 and (100×1)/3 are different doubles. *)
Example percentage_operation_order :
  (float_of_int 1 / float_of_int 3 * 100 =? float_of_int 100 / float_of_int 3)%float = false.
Proof. vm_compute. reflexivity. Qed.

(** C3: the report written to progress.json has exactly the five keys
    total_features, implemented, progress_percentage, implemented_features
    and pending_features; total_features is the number of features,
    implemented the number of features whose view file exists, and the two
    lists hold the ids with and without a view file. *)
Theorem progress_report_keys (w : world) spec features ids :
  spec_file w = Ok spec ->
  spec !! "features" = Some features ->
  Forall2 has_id features ids ->
  exists doc,
    file_writes (trace check_progress.main w) = [ ("progress.json"%string, doc) ]
    /\ keys doc = [ "total_features"; "implemented"; "progress_percentage";
                    "implemented_features"; "pending_features" ]%string
    /\ doc = JDict
        [ ("total_features"%string, JInt (Z.of_nat (length features)));
          ("implemented"%string, JInt (Z.of_nat (length (implemented_ids w ids))));
          ("progress_percentage"%string,
            json_of_num (spec_percentage (length (implemented_ids w ids)) (length features)));
          ("implemented_features"%string, JList (map JStr (implemented_ids w ids)));
          ("pending_features"%string, JList (map JStr (pending_ids w ids))) ].
Proof.
  intros Hfile Hfeat Hids.
  unfold trace. rewrite (check_progress_run w spec features ids Hfile Hfeat Hids).
  eexists. repeat split.
Qed.

Lemma progress_report_keys_sample :
  exists doc,
    file_writes (trace check_progress.main sample_world) = [ ("progress.json"%string, doc) ]
    /\ keys doc = [ "total_features"; "implemented"; "progress_percentage";
                    "implemented_features"; "pending_features" ]%string
    /\ doc = JDict
        [ ("total_features"%string, JInt 3);
          ("implemented"%string, JInt 1);
          ("progress_percentage"%string, JFloat (float_of_int 1 / float_of_int 3 * 100)%float);
          ("implemented_features"%string, JList [ JStr "F1" ]);
          ("pending_features"%string, JList [ JStr "F2"; JStr "F3" ]) ].
Proof.
  apply (progress_report_keys sample_world
           {[ "features" := sample_features ]} sample_features [ "F1"; "F2"; "F3" ]%string).
  - reflexivity.
  - reflexivity.
  - repeat constructor.
Defined.







(** C9: the implemented_features and pending_features lists of the report
    have no id in common, each keeps the order of the features in the
    file, and their lengths add up to total_features. *)
Theorem progress_lists_partition (w : world) spec features ids :
  spec_file w = Ok spec ->
  spec !! "features" = Some features ->
  Forall2 has_id features ids ->
  exists imp pend total,
    report_member "implemented_features" (trace check_progress.main w)
      = Some (JList (map JStr imp))
    /\ report_member "pending_features" (trace check_progress.main w)
      = Some (JList (map JStr pend))
    /\ report_member "total_features" (trace check_progress.main w) = Some (JInt total)
    /\ (forall id, In id imp -> ~ In id pend)
    /\ sublist imp ids
    /\ sublist pend ids
    /\ Z.of_nat (length imp + length pend) = total
    /\ total = Z.of_nat (length features).
Proof.
  intros Hfile Hfeat Hids.
  exists (implemented_ids w ids), (pending_ids w ids), (Z.of_nat (length features)).
  unfold trace. rewrite (check_progress_run w spec features ids Hfile Hfeat Hids).
  repeat split.
  - intros id Himp Hpend.
    apply filter_In in Himp as [_ Hyes]. apply filter_In in Hpend as [_ Hno].
    rewrite Hyes in Hno. discriminate Hno.
  - apply filter_sublist.
  - apply filter_sublist.
  - unfold implemented_ids, pending_ids. rewrite filter_split_length.
    rewrite (Forall2_length _ _ _ Hids). reflexivity.
Qed.

Lemma progress_lists_partition_sample :
  exists imp pend total,
    report_member "implemented_features" (trace check_progress.main sample_world)
      = Some (JList (map JStr imp))
    /\ report_member "pending_features" (trace check_progress.main sample_world)
      = Some (JList (map JStr pend))
    /\ report_member "total_features" (trace check_progress.main sample_world)
      = Some (JInt total)
    /\ (forall id, In id imp -> ~ In id pend)
    /\ sublist imp [ "F1"; "F2"; "F3" ]%string
    /\ sublist pend [ "F1"; "F2"; "F3" ]%string
    /\ Z.of_nat (length imp + length pend) = total
    /\ total = 3.
Proof.
  apply (progress_lists_partition sample_world
           {[ "features" := sample_features ]} sample_features [ "F1"; "F2"; "F3" ]%string).
  - reflexivity.
  - reflexivity.
  - repeat constructor.
Defined.

(** ** scripts/create_issues.py *)

Lemma str_in_has_label l i :
  str_in l (create_issues.label_names i) = has_label l i.
Proof.
  unfold str_in, create_issues.label_names, has_label.
  induction (labels i) as [|lbl ls IH]; cbn; [reflexivity|].
  rewrite IH. reflexivity.
Qed.

(** The sorting loop, started from any three lists, appends to each the
    issues of its bucket. *)
Lemma sort_issues_from issues :
  forall b,
    fold_left create_issues.place issues b
    = {| create_issues.not_started :=
           create_issues.not_started b ++ in_bucket NotStarted issues;
         create_issues.ready_to_implement :=
           create_issues.ready_to_implement b ++ in_bucket ReadyToImplement issues;
         create_issues.implemented :=
           create_issues.implemented b ++ in_bucket Implemented issues |}.
Proof.
  induction issues as [|i issues IH]; intros [ns rd im].
  - cbn. rewrite !app_nil_r. reflexivity.
  - cbn [fold_left]. rewrite IH. unfold create_issues.place, in_bucket.
    cbn [List.filter]. unfold bucket_of. rewrite !str_in_has_label.
    destruct (has_label "implemented" i); [|destruct (has_label "ready-to-implement" i)];
      cbn; rewrite <- ?app_assoc; reflexivity.
Qed.

Lemma buckets_permutation issues :
  Permutation
    (in_bucket Implemented issues ++ in_bucket ReadyToImplement issues
       ++ in_bucket NotStarted issues)
    issues.
Proof.
  unfold in_bucket. induction issues as [|i issues IH]; cbn; [constructor|].
  destruct (bucket_of i); cbn.
  - now constructor.
  - rewrite <- Permutation_middle. now constructor.
  - rewrite app_assoc, <- Permutation_middle, <- app_assoc. now constructor.
Qed.

(** The precedence at work: an issue labelled both 'implemented' and
    'ready-to-implement' lands among the implemented ones only. *)
Example dashboard_buckets_sample :
  map number (create_issues.implemented (create_issues.sort_issues sample_issues)) = [ 2 ]
  /\ map number (create_issues.ready_to_implement (create_issues.sort_issues sample_issues)) = [ 3 ]
  /\ map number (create_issues.not_started (create_issues.sort_issues sample_issues)) = [ 4 ].
Proof. repeat split. Qed.

(** What the dashboard leaves when the fetched issue list is empty. *)
Lemma show_dashboard_empty_run (w : world) p :
  proc w 0%nat create_issues.issue_list_cmd = Exited p ->
  returncode p = 0 ->
  loads_issues w (stdout p) = Some [] ->
  run create_issues.show_dashboard w
  = (Raise ZeroDivisionError,
     [ EPrint (str_repeat "=" 60);
       EPrint "🎤 voice-koereq Issue Dashboard";
       EPrint (str_repeat "=" 60);
       EPrint ("📅 " +:+ now w);
       EPrint "";
       ERun create_issues.issue_list_cmd true (Exited p);
       EPrint "📊 統計";
       EPrint "  総Issue数: 0" ]).
Proof.
  intros Hproc Hcode Hload.
  unfold run, create_issues.show_dashboard, bind, print, emit, ask, subprocess_run.
  cbn. rewrite Hproc. cbn. rewrite Hcode. cbn. rewrite Hload. reflexivity.
Qed.

(** C10, refuted as worded: on an empty issue list the dashboard does raise
    [ZeroDivisionError], but by then the header of the statistics and the
    line with the total have been printed. *)
Lemma empty_list_summary_counterexample :
  outcome create_issues.show_dashboard no_issues_world = Raise ZeroDivisionError
  /\ In "📊 統計"%string (printed (trace create_issues.show_dashboard no_issues_world))
  /\ In "  総Issue数: 0"%string (printed (trace create_issues.show_dashboard no_issues_world))
  /\ ~ empty_list_claim no_issues_world.
Proof.
  split; [reflexivity|]. split; [|split].
  - vm_compute. tauto.
  - vm_compute. tauto.
  - intros [_ Hnone]. vm_compute in Hnone. discriminate Hnone.
Qed.

(** C10, amended: when the issue-list call succeeds with an empty list, the
    dashboard raises an uncaught [ZeroDivisionError] while computing the
    implemented percentage; the statistics header and the total line are
    the last lines printed, so no bucket line and nothing after the
    statistics appears. *)
Theorem empty_list_division_by_zero (w : world) p :
  proc w 0%nat create_issues.issue_list_cmd = Exited p ->
  returncode p = 0 ->
  loads_issues w (stdout p) = Some [] ->
  outcome create_issues.show_dashboard w = Raise ZeroDivisionError
  /\ printed (trace create_issues.show_dashboard w)
     = [ str_repeat "=" 60; "🎤 voice-koereq Issue Dashboard"; str_repeat "=" 60;
         "📅 " +:+ now w; ""; "📊 統計"; "  総Issue数: 0" ]%string
  /\ existsb is_bucket_line (printed (trace create_issues.show_dashboard w)) = false
  /\ commands (trace create_issues.show_dashboard w) = [ create_issues.issue_list_cmd ].
Proof.
  intros Hproc Hcode Hload.
  unfold outcome, trace. rewrite (show_dashboard_empty_run w p Hproc Hcode Hload).
  repeat split.
Qed.

Lemma empty_list_division_by_zero_sample :
  outcome create_issues.show_dashboard no_issues_world = Raise ZeroDivisionError.
Proof.
  apply (empty_list_division_by_zero no_issues_world
           {| returncode := 0; stdout := "[]"; stderr := "" |}); reflexivity.
Defined.

(** ** Loops over subprocess calls *)

Section Loop.

Context {A B : Type}.
Variable related : A -> B -> Prop.
Variable body : A -> M unit.
Variable calls : nat.
Variable turn : world -> nat -> B -> list event.
Variable w : world.

Hypothesis body_turn :
  forall a b s,
    related a b ->
    body a w s
    = (Ok tt, {| events := events s ++ turn w (nruns s) b; nruns := (calls + nruns s)%nat |}).

(** When every turn returns, the loop runs through the whole list. *)
Lemma for_each_trace items items' :
  Forall2 related items items' ->
  forall s,
    for_each items body w s
    = (Ok tt, {| events := events s ++ loop_trace calls turn w (nruns s) items';
                 nruns := (calls * length items' + nruns s)%nat |}).
Proof.
  induction 1 as [|a b items items' Hab _ IH]; intros s.
  - cbn. rewrite app_nil_r, Nat.mul_0_r. destruct s; reflexivity.
  - cbn [for_each]. rewrite (bind_Ok _ _ _ _ _ _ (body_turn a b s Hab)).
    rewrite IH. cbn [events nruns loop_trace length].
    rewrite <- app_assoc. do 2 f_equal. lia.
Qed.

End Loop.

Lemma commands_app t1 t2 : commands (t1 ++ t2) = commands t1 ++ commands t2.
Proof. unfold commands. apply flat_map_app. Qed.

Lemma printed_app t1 t2 : printed (t1 ++ t2) = printed t1 ++ printed t2.
Proof. unfold printed. apply flat_map_app. Qed.

(** The calls of a loop are the calls of its turns, in order. *)
Lemma commands_loop_trace {B} calls (turn : world -> nat -> B -> list event)
    (cmds : B -> list (list string)) w :
  (forall i x, commands (turn w i x) = cmds x) ->
  forall items i, commands (loop_trace calls turn w i items) = flat_map cmds items.
Proof.
  intros Hturn. induction items as [|x items IH]; intros i; cbn; [reflexivity|].
  rewrite commands_app, Hturn, IH. reflexivity.
Qed.


(** Unfolds one step of a script and tidies the trace it has appended. *)
Ltac step :=
  unfold try_except, bind, subprocess_run, print, sleep, emit, ask, ret, raise;
  cbn [events nruns fst snd].

Ltac tidy := cbn; rewrite <- ?app_assoc; cbn; try reflexivity.

(** ** The turns of the five loops *)

Lemma create_issue_turn (w : world) f d s :
  exits w ->
  describes f d ->
  create_feature_issues.create_issue f w s
  = (Ok tt, {| events := events s ++ create_turn w (nruns s) d; nruns := (1 + nruns s)%nat |}).
Proof.
  intros Hexits (Hid & Hname & Hdesc & Htype & Hprio).
  unfold create_feature_issues.create_issue.
  rewrite (bind_Ok _ _ _ _ _ _ (getitem_Some _ _ _ w s Hid)).
  rewrite (bind_Ok _ _ _ _ _ _ (getitem_Some _ _ _ w s Hname)).
  rewrite (bind_Ok _ _ _ _ _ _ (getitem_Some _ _ _ w s Hdesc)).
  rewrite (bind_Ok _ _ _ _ _ _ (getitem_Some _ _ _ w s Htype)).
  rewrite (bind_Ok _ _ _ _ _ _ (getitem_Some _ _ _ w s Hprio)).
  unfold create_turn, created_or_failed.
  change (create_feature_issues.issue_cmd _ _ _) with (create_cmd d).
  change (create_feature_issues.issue_title _ _) with ("[" +:+ d_id d +:+ "] " +:+ d_name d).
  destruct (Hexits (nruns s) (create_cmd d)) as [p Hp].
  step. rewrite Hp. destruct (returncode p =? 0); tidy.
Qed.



Lemma trigger_one_turn (w : world) all n s :
  exits w ->
  trigger_claude_batch.trigger_one all n w s
  = (Ok tt, {| events := events s ++ trigger_turn all w (nruns s) n; nruns := (1 + nruns s)%nat |}).
Proof.
  intros Hexits. unfold trigger_claude_batch.trigger_one, trigger_turn.
  destruct (Hexits (nruns s) (trigger_claude_batch.comment_cmd n)) as [p Hp].
  step. rewrite Hp. destruct (returncode p =? 0); [destruct (1 <? len all)|]; tidy.
Qed.

Lemma sync_branch_turn (w : world) entry s :
  exits w ->
  sync_implementations.sync_branch entry w s
  = (Ok tt, {| events := events s ++ sync_turn w (nruns s) entry; nruns := (2 + nruns s)%nat |}).
Proof.
  intros Hexits. destruct entry as [[branch feature_id] feature_name].
  unfold sync_implementations.sync_branch, sync_turn.
  destruct (Hexits (nruns s) (sync_implementations.cmd_ios branch feature_id)) as [p Hp].
  destruct (Hexits (S (nruns s)) (sync_implementations.cmd_android branch feature_id)) as [q Hq].
  step. rewrite Hp. cbn.
  destruct (returncode p =? 0); cbn; rewrite Hq; cbn;
    destruct (returncode q =? 0); tidy.
Qed.

Lemma milestone_body_turn (w : world) ms s :
  exits w ->
  (let '(ms_title, ms_description, ms_due_on) := ms in
   bind (subprocess_run [ "gh"; "api"; "repos/:owner/:repo/milestones";
                          "-f"; "title=" +:+ ms_title;
                          "-f"; "description=" +:+ ms_description;
                          "-f"; "due_on=" +:+ ms_due_on ]%string false false)
        (fun _ => print ("✅ Created milestone: " +:+ ms_title))) w s
  = (Ok tt, {| events := events s ++ milestone_turn w (nruns s) ms; nruns := (1 + nruns s)%nat |}).
Proof.
  intros Hexits. destruct ms as [[ms_title ms_description] ms_due_on].
  unfold milestone_turn.
  match goal with |- context [subprocess_run ?c _ _] => destruct (Hexits (nruns s) c) as [p Hp] end.
  step. rewrite Hp. tidy.
Qed.

Lemma Forall2_same {A} (l : list A) : Forall2 eq l l.
Proof. induction l; now constructor. Qed.

(** ** Whole runs of the five loops *)

Lemma create_feature_issues_run (w : world) spec ds :
  exits w ->
  spec_file w = Ok spec ->
  Forall2 describes (default [] (spec !! "features")) ds ->
  run create_feature_issues.main w = (Ok tt, loop_trace 1 create_turn w 0 ds).
Proof.
  intros Hexits Hfile Hds.
  unfold run, create_feature_issues.main, create_feature_issues.create_feature_issues.
  unfold bind at 1, ask at 1. rewrite Hfile. unfold bind at 1, ret at 1.
  rewrite (for_each_trace describes _ 1%nat create_turn w
             (fun f d s Hfd => create_issue_turn w f d s Hexits Hfd) _ _ Hds).
  reflexivity.
Qed.


Lemma trigger_run (w : world) (issue_numbers : list Z) :
  exits w ->
  run (trigger_claude_batch.trigger_claude_on_issues issue_numbers) w
  = (Ok tt, loop_trace 1 (trigger_turn issue_numbers) w 0 issue_numbers).
Proof.
  intros Hexits. unfold run, trigger_claude_batch.trigger_claude_on_issues.
  rewrite (for_each_trace eq _ 1%nat (trigger_turn issue_numbers) w
             (fun a b s Hab =>
                eq_ind a (fun b => _ = (Ok tt, {| events := events s ++ trigger_turn _ w (nruns s) b;
                                                  nruns := (1 + nruns s)%nat |}))
                  (trigger_one_turn w issue_numbers a s Hexits) b Hab)
             _ _ (Forall2_same issue_numbers)).
  reflexivity.
Qed.

Lemma create_milestone_run (w : world) :
  exits w ->
  run create_issues.create_milestone w
  = (Ok tt, loop_trace 1 milestone_turn w 0 create_issues.milestones).
Proof.
  intros Hexits. unfold run, create_issues.create_milestone.
  assert (Hturn : forall a b s, a = b ->
            (fun '(ms_title, ms_description, ms_due_on) =>
               bind (subprocess_run [ "gh"; "api"; "repos/:owner/:repo/milestones";
                                      "-f"; "title=" +:+ ms_title;
                                      "-f"; "description=" +:+ ms_description;
                                      "-f"; "due_on=" +:+ ms_due_on ]%string false false)
                    (fun _ => print ("✅ Created milestone: " +:+ ms_title))) a w s
            = (Ok tt, {| events := events s ++ milestone_turn w (nruns s) b;
                         nruns := (1 + nruns s)%nat |})).
  { intros a b s <-. apply (milestone_body_turn w a s Hexits). }
  rewrite (for_each_trace eq _ 1%nat milestone_turn w Hturn _ _
             (Forall2_same create_issues.milestones)).
  reflexivity.
Qed.

Lemma sync_run (w : world) :
  exits w ->
  run sync_implementations.main w
  = (Ok tt,
     ERun [ "git"; "branch"; "--show-current" ]%string true
          (proc w 0%nat [ "git"; "branch"; "--show-current" ]%string)
       :: loop_trace 2 sync_turn w 1 sync_implementations.claude_branches
       ++ [ ERun [ "git"; "add"; "." ]%string false (proc w 9%nat [ "git"; "add"; "." ]%string);
            ERun [ "git"; "status"; "--short" ]%string false
                 (proc w 10%nat [ "git"; "status"; "--short" ]%string);
            EPrint "
📋 Sync complete! Review changes and commit if needed." ]).
Proof.
  intros Hexits.
  unfold run, sync_implementations.main, sync_implementations.sync_claude_implementations.
  destruct (Hexits 0%nat [ "git"; "branch"; "--show-current" ]%string) as [p0 Hp0].
  destruct (Hexits 9%nat [ "git"; "add"; "." ]%string) as [p9 Hp9].
  destruct (Hexits 10%nat [ "git"; "status"; "--short" ]%string) as [p10 Hp10].
  unfold bind at 1. unfold subprocess_run at 1. cbn [nruns events start]. rewrite Hp0. cbn [andb].
  unfold bind at 1.
  rewrite (for_each_trace eq _ 2%nat sync_turn w
             (fun a b s Hab =>
                eq_ind a (fun b => _ = (Ok tt, {| events := events s ++ sync_turn w (nruns s) b;
                                                  nruns := (2 + nruns s)%nat |}))
                  (sync_branch_turn w a s Hexits) b Hab)
             _ _ (Forall2_same sync_implementations.claude_branches)).
  step. cbn [length sync_implementations.claude_branches Nat.mul Nat.add].
  rewrite Hp9. cbn [events nruns andb]. rewrite Hp10. cbn [events nruns andb].
  rewrite <- !app_assoc. reflexivity.
Qed.

(** ** scripts/create_feature_issues.py *)

Lemma string_append_assoc (a b c : string) : (a +:+ b) +:+ c = a +:+ b +:+ c.
Proof.
  induction a as [|x a IH]; [reflexivity|].
  change (String x ((a +:+ b) +:+ c) = String x (a +:+ b +:+ c)). f_equal. exact IH.
Qed.

Lemma embeds_here part after : embeds part (part +:+ after).
Proof. exists EmptyString, after. reflexivity. Qed.

Lemma embeds_skip part a s : embeds part s -> embeds part (a +:+ s).
Proof.
  intros (before & after & ->). exists (a +:+ before), after.
  symmetry. apply string_append_assoc.
Qed.

(** The issue text carries each of the five fields. *)
Lemma issue_body_embeds feature_id name description feature_type priority :
  embeds description
    (create_feature_issues.issue_body feature_id name description feature_type priority)
  /\ embeds feature_id
       (create_feature_issues.issue_body feature_id name description feature_type priority)
  /\ embeds name
       (create_feature_issues.issue_body feature_id name description feature_type priority)
  /\ embeds feature_type
       (create_feature_issues.issue_body feature_id name description feature_type priority)
  /\ embeds priority
       (create_feature_issues.issue_body feature_id name description feature_type priority).
Proof.
  unfold create_feature_issues.issue_body.
  split; [|split; [|split; [|split]]].
  - apply embeds_skip, embeds_here.
  - do 3 apply embeds_skip. apply embeds_here.
  - do 5 apply embeds_skip. apply embeds_here.
  - do 7 apply embeds_skip. apply embeds_here.
  - do 9 apply embeds_skip. apply embeds_here.
Qed.

Lemma commands_create_turn w i d : commands (create_turn w i d) = [ create_cmd d ].
Proof.
  unfold create_turn, created_or_failed.
  destruct (proc w i (create_cmd d)) as [p|msg]; [destruct (returncode p =? 0)|]; reflexivity.
Qed.

Lemma Forall2_flat_map_singleton {A B} (P : A -> B -> Prop) (f : A -> B) (l : list A) :
  (forall x, P x (f x)) -> Forall2 P l (flat_map (fun x => [ f x ]) l).
Proof. intros H. induction l; cbn; now constructor. Qed.

(** C6: for the feature descriptors read from the YAML file, each with the
    fields id, name, description, type and priority, the issue creator
    calls the CLI once per descriptor, in file order, with the title
    "[<id>] <name>", the label argument "feature,<type>,<priority>", and a
    body in which description, id, name, type and priority all occur. *)
Theorem issue_creator_command_line (w : world) spec ds :
  exits w ->
  spec_file w = Ok spec ->
  Forall2 describes (default [] (spec !! "features")) ds ->
  outcome create_feature_issues.main w = Ok tt
  /\ Forall2
       (fun d cmd =>
          exists body,
            cmd = [ "gh"; "issue"; "create";
                    "--title"; "[" +:+ d_id d +:+ "] " +:+ d_name d;
                    "--body"; body;
                    "--label"; "feature," +:+ d_type d +:+ "," +:+ d_priority d ]%string
            /\ embeds (d_description d) body
            /\ embeds (d_id d) body
            /\ embeds (d_name d) body
            /\ embeds (d_type d) body
            /\ embeds (d_priority d) body)
       ds (commands (trace create_feature_issues.main w)).
Proof.
  intros Hexits Hfile Hds.
  unfold outcome, trace. rewrite (create_feature_issues_run w spec ds Hexits Hfile Hds).
  split; [reflexivity|]. cbn [snd].
  rewrite (commands_loop_trace 1 create_turn (fun d => [ create_cmd d ]) w
             (commands_create_turn w)).
  apply Forall2_flat_map_singleton. intros d.
  exists (create_feature_issues.issue_body
            (d_id d) (d_name d) (d_description d) (d_type d) (d_priority d)).
  split; [reflexivity|].
  apply (issue_body_embeds (d_id d) (d_name d) (d_description d) (d_type d) (d_priority d)).
Qed.

Lemma issue_creator_command_line_sample :
  outcome create_feature_issues.main sample_world = Ok tt
  /\ Forall2
       (fun d cmd =>
          exists body,
            cmd = [ "gh"; "issue"; "create";
                    "--title"; "[" +:+ d_id d +:+ "] " +:+ d_name d;
                    "--body"; body;
                    "--label"; "feature," +:+ d_type d +:+ "," +:+ d_priority d ]%string
            /\ embeds (d_description d) body
            /\ embeds (d_id d) body
            /\ embeds (d_name d) body
            /\ embeds (d_type d) body
            /\ embeds (d_priority d) body)
       sample_descriptors (commands (trace create_feature_issues.main sample_world)).
Proof.
  apply (issue_creator_command_line sample_world {[ "features" := sample_features ]}
           sample_descriptors).
  - intros [|n] cmd; eexists; reflexivity.
  - reflexivity.
  - change (Forall2 describes sample_features sample_descriptors). repeat constructor.
Defined.

(** The first of the sample issues, as the CLI receives it. *)
Example issue_creator_first_call :
  exists body,
    head (commands (trace create_feature_issues.main sample_world))
    = Some [ "gh"; "issue"; "create"; "--title"; "[F1] Launch"; "--body"; body;
             "--label"; "feature,ui,high" ]%string.
Proof. eexists. vm_compute. reflexivity. Qed.

(** ** Failures of subprocess calls *)







Lemma commands_sync_turn w i entry :
  commands (sync_turn w i entry)
  = [ sync_implementations.cmd_ios (fst (fst entry)) (snd (fst entry));
      sync_implementations.cmd_android (fst (fst entry)) (snd (fst entry)) ].
Proof.
  destruct entry as [[branch feature_id] feature_name]. unfold sync_turn.
  rewrite !commands_app.
  destruct (succeeded _); destruct (succeeded _); reflexivity.
Qed.








(** In the sample world the first call fails and the loop still makes the
    other two. *)
Example create_feature_issues_sample_console :
  printed (trace create_feature_issues.main sample_world)
  = [ "❌ Failed to create: [F1] Launch";
      "   Error: HTTP 502";
      "✅ Created: [F2] Record";
      "   URL: https://github.com/NikoToRA/voice-koereq/issues/7";
      "✅ Created: [F3] Transcribe";
      "   URL: https://github.com/NikoToRA/voice-koereq/issues/7" ]%string.
Proof. vm_compute. reflexivity. Qed.

(** ** The pacing of the batch trigger *)

Lemma pacing_app t1 t2 : pacing (t1 ++ t2) = pacing t1 ++ pacing t2.
Proof. unfold pacing. apply flat_map_app. Qed.

Lemma pacing_trigger_turn all w i n :
  exits w ->
  pacing (trigger_turn all w i n)
  = Call :: (if succeeded (proc w i (trigger_claude_batch.comment_cmd n)) && (1 <? len all)
             then [ Pause 30 ] else []).
Proof.
  intros Hexits. unfold trigger_turn.
  destruct (Hexits i (trigger_claude_batch.comment_cmd n)) as [p ->]. cbn.
  destruct (returncode p =? 0); [destruct (1 <? len all)|]; reflexivity.
Qed.

Lemma paced_after_success_step w i n m rest :
  paced_after_success w i (n :: m :: rest)
  = Call :: (if succeeded (proc w i (trigger_claude_batch.comment_cmd n))
             then [ Pause 30 ] else [])
      ++ paced_after_success w (S i) (m :: rest).
Proof. reflexivity. Qed.

Lemma paced_after_success_starts w i m rest :
  exists tail, paced_after_success w i (m :: rest) = Call :: tail.
Proof. destruct rest; eexists; reflexivity. Qed.

(** With more than one issue number, the pacing up to the last call is a
    call per number and a sleep after each success but the last. *)
Lemma up_to_last_call_loop all w :
  exits w ->
  (1 <? len all) = true ->
  forall l i,
    up_to_last_call (pacing (loop_trace 1 (trigger_turn all) w i l))
    = paced_after_success w i l.
Proof.
  intros Hexits Hmany. induction l as [|n rest IH]; intros i; [reflexivity|].
  cbn [loop_trace]. rewrite pacing_app, (pacing_trigger_turn all w i n Hexits), Hmany.
  rewrite andb_true_r. specialize (IH (S i)). change (1 + i)%nat with (S i).
  destruct rest as [|m rest].
  - cbn. destruct (succeeded _); reflexivity.
  - rewrite paced_after_success_step.
    destruct (paced_after_success_starts w (S i) m rest) as [tail Htail].
    rewrite Htail in *.
    destruct (succeeded (proc w i (trigger_claude_batch.comment_cmd n)));
      cbn [app up_to_last_call]; rewrite IH; reflexivity.
Qed.

Lemma pacing_loop_thirty all w :
  exits w ->
  forall l i,
    Forall (fun p => p = Call \/ p = Pause 30) (pacing (loop_trace 1 (trigger_turn all) w i l)).
Proof.
  intros Hexits. induction l as [|n rest IH]; intros i; [constructor|].
  cbn [loop_trace]. rewrite pacing_app, (pacing_trigger_turn all w i n Hexits).
  apply Forall_app. split; [|apply IH].
  destruct (_ && _).
  - constructor; [left; reflexivity|].
    constructor; [right; reflexivity|constructor].
  - constructor; [left; reflexivity|constructor].
Qed.

(** C4, refuted as worded: with two issue numbers and every call exiting
    with status 1, the two calls follow each other with no sleep between
    them. *)
Lemma sleep_between_counterexample :
  pacing (trace (trigger_claude_batch.trigger_claude_on_issues [ 2; 3 ]) failing_world)
  = [ Call; Call ]
  /\ ~ sleep_between_claim failing_world [ 2; 3 ].
Proof.
  split; [vm_compute; reflexivity|].
  unfold sleep_between_claim. vm_compute. discriminate.
Qed.

(** C4, amended: every sleep of the batch trigger lasts 30 seconds; none
    comes before the first call; between two successive calls there is
    exactly one sleep when the earlier call succeeded and none when it
    failed; and a list of at most one issue number has no sleep at all. *)
Theorem sleep_after_each_success (w : world) (issue_numbers : list Z) :
  exits w ->
  up_to_last_call
    (pacing (trace (trigger_claude_batch.trigger_claude_on_issues issue_numbers) w))
  = paced_after_success w 0 issue_numbers
  /\ Forall (fun p => p = Call \/ p = Pause 30)
       (pacing (trace (trigger_claude_batch.trigger_claude_on_issues issue_numbers) w))
  /\ (forall first rest,
        pacing (trace (trigger_claude_batch.trigger_claude_on_issues issue_numbers) w)
        = first :: rest -> first = Call)
  /\ ((length issue_numbers <= 1)%nat ->
      pacing (trace (trigger_claude_batch.trigger_claude_on_issues issue_numbers) w)
      = map (fun _ => Call) issue_numbers).
Proof.
  intros Hexits. unfold trace. rewrite (trigger_run w issue_numbers Hexits). cbn [snd].
  assert (Hshort : (length issue_numbers <= 1)%nat ->
            pacing (loop_trace 1 (trigger_turn issue_numbers) w 0 issue_numbers)
            = map (fun _ => Call) issue_numbers).
  { intros Hlen. destruct issue_numbers as [|n [|m rest]]; [reflexivity| |cbn in Hlen; lia].
    cbn [loop_trace]. rewrite app_nil_r, (pacing_trigger_turn [ n ] w 0 n Hexits).
    cbn. rewrite andb_false_r. reflexivity. }
  split; [|split; [|split]].
  - destruct (1 <? len issue_numbers) eqn:Hmany.
    + apply (up_to_last_call_loop issue_numbers w Hexits Hmany).
    + assert (Hlen : (length issue_numbers <= 1)%nat)
        by (apply Z.ltb_ge in Hmany; unfold len in Hmany; lia).
      rewrite (Hshort Hlen).
      destruct issue_numbers as [|n [|m rest]]; [reflexivity|reflexivity|cbn in Hlen; lia].
  - apply (pacing_loop_thirty issue_numbers w Hexits).
  - intros first rest Hpacing. destruct issue_numbers as [|n numbers]; [discriminate Hpacing|].
    cbn [loop_trace] in Hpacing.
    rewrite pacing_app, (pacing_trigger_turn _ w 0 n Hexits) in Hpacing.
    cbn in Hpacing. congruence.
  - exact Hshort.
Qed.

Lemma sleep_after_each_success_sample :
  up_to_last_call
    (pacing (trace (trigger_claude_batch.trigger_claude_on_issues [ 2; 3; 4 ]) sample_world))
  = [ Call; Call; Pause 30; Call ].
Proof.
  apply (sleep_after_each_success sample_world [ 2; 3; 4 ]).
  intros [|n] cmd; eexists; reflexivity.
Defined.

(** When the last call succeeds, the trigger sleeps once more after it,
    although no call follows. *)
Example sleep_after_last_call :
  pacing (trace (trigger_claude_batch.trigger_claude_on_issues [ 2; 3; 4 ]) sample_world)
  = [ Call; Call; Pause 30; Call; Pause 30 ].
Proof. vm_compute. reflexivity. Qed.

(** ** What the scripts write *)

Section Emits.

Variable P : event -> Prop.
Hypothesis P_print : forall line, P (EPrint line).
Hypothesis P_run : forall cmd captured out, P (ERun cmd captured out).
Hypothesis P_sleep : forall seconds, P (ESleep seconds).
Hypothesis P_input : forall prompt, P (EInput prompt).

Lemma emits_ret {A} (a : A) : emits P (ret a).
Proof. intros w s. exists []. cbn. rewrite app_nil_r. auto. Qed.

Lemma emits_raise {A} e : emits P (@raise A e).
Proof. intros w s. exists []. cbn. rewrite app_nil_r. auto. Qed.

Lemma emits_ask {A} (f : world -> A) : emits P (ask f).
Proof. intros w s. exists []. cbn. rewrite app_nil_r. auto. Qed.

Lemma emits_emit e : P e -> emits P (emit e).
Proof. intros He w s. exists [ e ]. cbn. auto. Qed.

Lemma emits_print line : emits P (print line).
Proof. apply emits_emit, P_print. Qed.

Lemma emits_sleep seconds : emits P (sleep seconds).
Proof. apply emits_emit, P_sleep. Qed.

Lemma emits_subprocess_run cmd captured check : emits P (subprocess_run cmd captured check).
Proof.
  intros w s. exists [ ERun cmd captured (proc w (nruns s) cmd) ].
  split; [|auto]. unfold subprocess_run.
  destruct (proc w (nruns s) cmd) as [p|msg]; [destruct (check && _)|]; reflexivity.
Qed.

Lemma emits_bind {A B} (m : M A) (k : A -> M B) :
  emits P m -> (forall a, emits P (k a)) -> emits P (bind m k).
Proof.
  intros Hm Hk w s. unfold bind.
  destruct (Hm w s) as (extra & Hevents & Hextra).
  destruct (m w s) as [[a|e] s']; cbn [snd] in *.
  - destruct (Hk a w s') as (extra' & Hevents' & Hextra').
    exists (extra ++ extra'). split.
    + rewrite Hevents', Hevents, app_assoc. reflexivity.
    + apply Forall_app. auto.
  - exists extra. auto.
Qed.

Lemma emits_try_except {A} (body : M A) handles (handler : exn -> M A) :
  emits P body -> (forall e, emits P (handler e)) -> emits P (try_except body handles handler).
Proof.
  intros Hbody Hhandler w s. unfold try_except.
  destruct (Hbody w s) as (extra & Hevents & Hextra).
  destruct (body w s) as [[a|e] s']; cbn [snd] in *.
  - exists extra. auto.
  - destruct (handles e).
    + destruct (Hhandler e w s') as (extra' & Hevents' & Hextra').
      exists (extra ++ extra'). split.
      * rewrite Hevents', Hevents, app_assoc. reflexivity.
      * apply Forall_app. auto.
    + exists extra. auto.
Qed.

Lemma emits_for_each {A} (l : list A) (body : A -> M unit) :
  (forall x, emits P (body x)) -> emits P (for_each l body).
Proof.
  intros Hbody. induction l as [|x l IH]; cbn [for_each].
  - apply emits_ret.
  - apply emits_bind; [apply Hbody|]. intros _. exact IH.
Qed.

Lemma emits_getitem {V} (d : gmap string V) key : emits P (getitem d key).
Proof. unfold getitem. destruct (d !! key); [apply emits_ret|apply emits_raise]. Qed.

Lemma emits_truediv a b : emits P (truediv a b).
Proof. unfold truediv. destruct (b =? 0); [apply emits_raise|apply emits_ret]. Qed.

Lemma emits_input prompt : emits P (input prompt).
Proof.
  unfold input. apply emits_bind; [apply emits_emit, P_input|]. intros _.
  apply emits_bind; [apply emits_ask|]. intros [line|]; [apply emits_ret|apply emits_raise].
Qed.

Lemma emits_when_nonempty {A} (l : list A) body :
  emits P body -> emits P (create_issues.when_nonempty l body).
Proof. intros Hbody. destruct l; [apply emits_ret|exact Hbody]. Qed.

End Emits.

(** Breaks a script down to its primitive steps, by the shape of the
    computation. *)
Ltac emits_steps :=
  repeat
    match goal with
    | |- forall _, _ => intros
    | |- emits _ ((fun _ => _) _) => cbv beta
    | |- emits _ (bind _ _) => apply emits_bind
    | |- emits _ (try_except _ _ _) => apply emits_try_except
    | |- emits _ (for_each _ _) => apply emits_for_each
    | |- emits _ (create_issues.when_nonempty _ _) => apply emits_when_nonempty
    | |- emits _ (ret _) => apply emits_ret
    | |- emits _ (raise _) => apply emits_raise
    | |- emits _ (ask _) => apply emits_ask
    | |- emits _ (print _) => apply emits_print
    | |- emits _ (sleep _) => apply emits_sleep
    | |- emits _ (subprocess_run _ _ _) => apply emits_subprocess_run
    | |- emits _ (getitem _ _) => apply emits_getitem
    | |- emits _ (truediv _ _) => apply emits_truediv
    | |- emits _ (input _) => apply emits_input
    | |- emits _ (match ?x with _ => _ end) => destruct x
    end.

Section NoWrite.

Variable P : event -> Prop.
Hypothesis P_print : forall line, P (EPrint line).
Hypothesis P_run : forall cmd captured out, P (ERun cmd captured out).
Hypothesis P_sleep : forall seconds, P (ESleep seconds).
Hypothesis P_input : forall prompt, P (EInput prompt).

Lemma emits_scan features : forall imp pend, emits P (check_progress.scan features imp pend).
Proof.
  induction features as [|f features IH]; intros imp pend; cbn [check_progress.scan].
  - now apply emits_ret.
  - apply emits_bind; [now apply emits_getitem|]. intros id.
    apply emits_bind; [now apply emits_ask|]. intros [|]; apply IH.
Qed.

Lemma emits_check_progress :
  (forall doc, P (EWriteFile "progress.json" doc)) -> emits P check_progress.main.
Proof.
  intros P_write.
  unfold check_progress.main, check_progress.check_progress, check_progress.percentage,
    json_dump_to.
  apply emits_bind; [now apply emits_ask|]. intros loaded.
  apply emits_bind; [destruct loaded; [now apply emits_ret|now apply emits_raise]|]. intros spec.
  apply emits_bind; [now apply emits_getitem|]. intros features.
  apply emits_bind; [now apply emits_scan|]. intros [imp pend].
  apply emits_bind; [now apply emits_getitem|]. intros features'.
  apply emits_bind.
  { destruct (0 <? _); [|now apply emits_ret].
    apply emits_bind; [now apply emits_truediv|]. intros q. now apply emits_ret. }
  intros progress.
  repeat (apply emits_bind; [now apply emits_print|]; intros _).
  apply emits_bind; [destruct pend; now apply emits_print|]. intros _.
  apply emits_emit, P_write.
Qed.

Lemma emits_create_feature_issues : emits P create_feature_issues.main.
Proof.
  unfold create_feature_issues.main, create_feature_issues.create_feature_issues,
    create_feature_issues.create_issue.
  emits_steps; auto.
Qed.

Lemma emits_create_issues_simple : emits P create_issues_simple.main.
Proof.
  unfold create_issues_simple.main, create_issues_simple.create_feature_issues,
    create_issues_simple.create_issue.
  emits_steps; auto.
Qed.

Lemma emits_create_issues : emits P create_issues.main.
Proof.
  unfold create_issues.main, create_issues.create_milestone, create_issues.show_dashboard,
    create_issues.show_statistics, create_issues.show_details, create_issues.show_prs,
    create_issues.show_actions.
  emits_steps; auto.
Qed.

Lemma emits_sync_implementations : emits P sync_implementations.main.
Proof.
  unfold sync_implementations.main, sync_implementations.sync_claude_implementations,
    sync_implementations.sync_branch.
  emits_steps; auto.
Qed.

Lemma emits_parse_numbers int parts : emits P (trigger_claude_batch.parse_numbers int parts).
Proof.
  induction parts as [|x parts IH]; cbn [trigger_claude_batch.parse_numbers].
  - now apply emits_ret.
  - destruct (int (strip x)); [|now apply emits_raise].
    apply emits_bind; [exact IH|]. intros ns. now apply emits_ret.
Qed.

Lemma emits_trigger_claude_batch : emits P trigger_claude_batch.main.
Proof.
  unfold trigger_claude_batch.main, trigger_claude_batch.get_unimplemented_issues,
    trigger_claude_batch.trigger_claude_on_issues, trigger_claude_batch.trigger_one.
  emits_steps; auto using emits_parse_numbers.
Qed.

End NoWrite.

Lemma trace_emits (P : event -> Prop) {A} (m : M A) (w : world) :
  emits P m -> Forall P (trace m w).
Proof.
  intros Hm. destruct (Hm w start) as (extra & Hevents & Hextra).
  unfold trace, run. destruct (m w start) as [r s]. cbn in *. now subst.
Qed.

Lemma file_writes_no_write t : Forall no_write t -> file_writes t = [].
Proof.
  induction 1 as [|e t He _ IH]; [reflexivity|].
  destruct e; cbn in *; (exact IH || contradiction).
Qed.

Lemma file_writes_only path t :
  Forall (writes_only path) t -> forall p doc, In (p, doc) (file_writes t) -> p = path.
Proof.
  induction 1 as [|e t He _ IH]; intros p doc Hin; [contradiction|].
  destruct e; cbn in *; try (exact (IH p doc Hin)).
  destruct Hin as [Heq|Hin]; [congruence|exact (IH p doc Hin)].
Qed.

(** C7: whatever the world, the issue creators, the dashboard and
    milestone creator, the sync script and the batch trigger write no file
    themselves, and the only file the progress checker writes is
    progress.json; what the external CLI does on its own account, remote
    or local, is not an action of the scripts. *)
Theorem only_progress_json_written (w : world) :
  file_writes (trace create_feature_issues.main w) = []
  /\ file_writes (trace create_issues_simple.main w) = []
  /\ file_writes (trace create_issues.main w) = []
  /\ file_writes (trace sync_implementations.main w) = []
  /\ file_writes (trace trigger_claude_batch.main w) = []
  /\ (forall path doc,
        In (path, doc) (file_writes (trace check_progress.main w)) ->
        path = "progress.json"%string).
Proof.
  repeat split.
  - apply file_writes_no_write, trace_emits, emits_create_feature_issues; intros; exact I.
  - apply file_writes_no_write, trace_emits, emits_create_issues_simple; intros; exact I.
  - apply file_writes_no_write, trace_emits, emits_create_issues; intros; exact I.
  - apply file_writes_no_write, trace_emits, emits_sync_implementations; intros; exact I.
  - apply file_writes_no_write, trace_emits, emits_trigger_claude_batch; intros; exact I.
  - apply file_writes_only, trace_emits, emits_check_progress; intros;
      first [exact I | reflexivity].
Qed.

(** The progress checker does write its snapshot on the sample
    specification. *)
Example progress_json_written_sample :
  map fst (file_writes (trace check_progress.main sample_world)) = [ "progress.json"%string ].
Proof. vm_compute. reflexivity. Qed.

(** ** scripts/create_issues.py: what the dashboard shows of its buckets *)

Lemma printed_map_EPrint lines : printed (map EPrint lines) = lines.
Proof.
  induction lines as [|line lines IH]; [reflexivity|].
  change (line :: printed (map EPrint lines) = line :: lines). now rewrite IH.
Qed.

Lemma sort_issues_buckets issues :
  create_issues.sort_issues issues
  = {| create_issues.not_started := in_bucket NotStarted issues;
       create_issues.ready_to_implement := in_bucket ReadyToImplement issues;
       create_issues.implemented := in_bucket Implemented issues |}.
Proof. unfold create_issues.sort_issues. rewrite sort_issues_from. reflexivity. Qed.

(** The statistics block on a non-empty list. *)
Lemma show_statistics_nonempty (w : world) issues b s :
  issues <> [] ->
  create_issues.show_statistics issues b w s
  = (Ok tt,
     {| events :=
          events s
            ++ map EPrint
                 [ "📊 統計";
                   "  総Issue数: " +:+ str_int (len issues);
                   "  ✅ 実装済み: " +:+ str_int (len (create_issues.implemented b))
                     +:+ " (" +:+ format_1f
                                    (float_of_int (len (create_issues.implemented b))
                                     / float_of_int (len issues) * 100)%float
                     +:+ "%)";
                   "  🔄 実装中: " +:+ str_int (len (create_issues.ready_to_implement b));
                   "  ⏳ 未着手: " +:+ str_int (len (create_issues.not_started b));
                   "" ]%string;
        nruns := nruns s |}).
Proof.
  intros Hne. unfold create_issues.show_statistics, truediv.
  assert (Hlen : (len issues =? 0) = false).
  { apply Z.eqb_neq. unfold len. destruct issues; [congruence|cbn; lia]. }
  rewrite Hlen. step. tidy.
Qed.


Lemma for_each_print {A} (f : A -> string) (l : list A) (w : world) s :
  for_each l (fun x => print (f x)) w s
  = (Ok tt, {| events := events s ++ map EPrint (map f l); nruns := nruns s |}).
Proof.
  revert s. induction l as [|x l IH]; intros s; cbn [for_each map].
  - cbn. rewrite app_nil_r. destruct s; reflexivity.
  - unfold bind at 1, print at 1, emit at 1. rewrite IH. cbn [events nruns].
    rewrite <- app_assoc. reflexivity.
Qed.

Lemma bucket_block_run header bucket (w : world) s :
  create_issues.when_nonempty bucket
    (bind (print header)
          (fun _ => for_each bucket (fun i => print (create_issues.issue_line i)))) w s
  = (Ok tt, {| events := events s ++ map EPrint (bucket_block header bucket);
               nruns := nruns s |}).
Proof.
  destruct bucket as [|i bucket].
  - cbn. rewrite app_nil_r. destruct s; reflexivity.
  - unfold create_issues.when_nonempty, bucket_block.
    unfold bind at 1, print at 1, emit at 1. rewrite for_each_print. cbn [events nruns].
    rewrite <- app_assoc. reflexivity.
Qed.

Lemma implemented_block_run bucket (w : world) s :
  create_issues.when_nonempty bucket
    (bind (print "✅ 実装済みのIssue:")
       (fun _ =>
          bind (for_each (take 5 bucket) (fun i => print (create_issues.issue_line i)))
            (fun _ =>
               if 5 <? len bucket
               then print ("  ... 他 " +:+ str_int (len bucket - 5) +:+ " 件")
               else ret tt))) w s
  = (Ok tt, {| events := events s ++ map EPrint (implemented_block bucket);
               nruns := nruns s |}).
Proof.
  destruct bucket as [|i bucket].
  - cbn. rewrite app_nil_r. destruct s; reflexivity.
  - unfold create_issues.when_nonempty, implemented_block.
    unfold bind at 1, print at 1, emit at 1. unfold bind at 1. rewrite for_each_print.
    cbn [events nruns]. destruct (5 <? len (i :: bucket)).
    + unfold print, emit. cbn [events nruns].
      rewrite <- !app_assoc. cbn [app map]. rewrite map_app. reflexivity.
    + unfold ret. rewrite <- !app_assoc. cbn [app map]. rewrite app_nil_r. reflexivity.
Qed.

(** The detail blocks list the issues of each bucket. *)
Lemma show_details_run issues (w : world) s :
  create_issues.show_details
    {| create_issues.not_started := in_bucket NotStarted issues;
       create_issues.ready_to_implement := in_bucket ReadyToImplement issues;
       create_issues.implemented := in_bucket Implemented issues |} w s
  = (Ok tt, {| events := events s ++ map EPrint (details_lines issues); nruns := nruns s |}).
Proof.
  unfold create_issues.show_details, details_lines.
  cbn [create_issues.implemented create_issues.ready_to_implement create_issues.not_started].
  rewrite (bind_Ok _ _ _ _ _ _ (bucket_block_run _ _ w s)).
  unfold bind at 1, print at 1, emit at 1. cbn [events nruns].
  rewrite (bind_Ok _ _ _ _ _ _ (bucket_block_run _ _ w _)).
  unfold bind at 1, print at 1, emit at 1. cbn [events nruns].
  rewrite (bind_Ok _ _ _ _ _ _ (implemented_block_run _ w _)).
  unfold print, emit. cbn [events nruns].
  rewrite !map_app, <- !app_assoc. reflexivity.
Qed.

(** Whatever the pull-request block and the closing block do, they only
    add to the trace. *)
Lemma show_prs_actions_extend b :
  emits (fun _ => True)
    (bind create_issues.show_prs (fun _ => create_issues.show_actions b)).
Proof.
  unfold create_issues.show_prs, create_issues.show_actions.
  emits_steps; auto.
Qed.

(** On a fetched, non-empty list the dashboard prints its heading, then
    the statistics and the details of the buckets of that list. *)
Lemma show_dashboard_buckets_shown (w : world) p issues :
  proc w 0%nat create_issues.issue_list_cmd = Exited p ->
  returncode p = 0 ->
  loads_issues w (stdout p) = Some issues ->
  issues <> [] ->
  exists rest,
    printed (trace create_issues.show_dashboard w)
    = [ str_repeat "=" 60; "🎤 voice-koereq Issue Dashboard"; str_repeat "=" 60;
        "📅 " +:+ now w; "" ]%string
        ++ statistics_lines issues ++ details_lines issues ++ rest.
Proof.
  intros Hproc Hcode Hload Hne.
  unfold trace, run, create_issues.show_dashboard.
  unfold bind at 1, print at 1, emit at 1. unfold bind at 1, print at 1, emit at 1.
  unfold bind at 1, print at 1, emit at 1.
  unfold bind at 1. unfold bind at 1, ask at 1. unfold print at 1, emit at 1.
  unfold bind at 1, print at 1, emit at 1.
  unfold bind at 1, subprocess_run at 1. cbn [events nruns start app]. rewrite Hproc.
  cbn [andb]. rewrite Hcode. cbn [Z.eqb negb].
  unfold bind at 1, ask at 1. rewrite Hload.
  rewrite sort_issues_buckets.
  rewrite (bind_Ok _ _ _ _ _ _ (show_statistics_nonempty w issues _ _ Hne)).
  cbn [create_issues.implemented create_issues.ready_to_implement create_issues.not_started
       events nruns].
  rewrite (bind_Ok _ _ _ _ _ _ (show_details_run issues w _)). cbn [events nruns].
  match goal with |- context [bind create_issues.show_prs ?k w ?s] =>
    destruct (show_prs_actions_extend
                {| create_issues.not_started := in_bucket NotStarted issues;
                   create_issues.ready_to_implement := in_bucket ReadyToImplement issues;
                   create_issues.implemented := in_bucket Implemented issues |} w s)
      as (extra & Hextra & _);
    destruct (bind create_issues.show_prs k w s) as [r s']
  end.
  cbn [snd events] in *. rewrite Hextra. exists (printed extra).
  rewrite !printed_app, !printed_map_EPrint. cbn. reflexivity.
Qed.

(** C5: the dashboard places each issue of the list it fetched in exactly
    one of the buckets implemented, ready-to-implement and not-started,
    chosen by its labels with 'implemented' ahead of 'ready-to-implement';
    the three buckets together are the fetched list, and their sizes add
    up to its length.  These are the buckets the dashboard shows: after
    its heading it prints the total of the fetched list, the sizes of the
    three buckets and, by bucket, the issues placed in each. *)
Theorem dashboard_buckets_partition (w : world) p (issues : list issue) :
  proc w 0%nat create_issues.issue_list_cmd = Exited p ->
  returncode p = 0 ->
  loads_issues w (stdout p) = Some issues ->
  create_issues.implemented (create_issues.sort_issues issues) = in_bucket Implemented issues
  /\ create_issues.ready_to_implement (create_issues.sort_issues issues)
     = in_bucket ReadyToImplement issues
  /\ create_issues.not_started (create_issues.sort_issues issues) = in_bucket NotStarted issues
  /\ (forall i b, In i (in_bucket b issues) <-> In i issues /\ bucket_of i = b)
  /\ Permutation
       (create_issues.implemented (create_issues.sort_issues issues)
          ++ create_issues.ready_to_implement (create_issues.sort_issues issues)
          ++ create_issues.not_started (create_issues.sort_issues issues))
       issues
  /\ (length (create_issues.implemented (create_issues.sort_issues issues))
      + length (create_issues.ready_to_implement (create_issues.sort_issues issues))
      + length (create_issues.not_started (create_issues.sort_issues issues)))%nat
     = length issues
  /\ (issues <> [] ->
      exists rest,
        printed (trace create_issues.show_dashboard w)
        = [ str_repeat "=" 60; "🎤 voice-koereq Issue Dashboard"; str_repeat "=" 60;
            "📅 " +:+ now w; "" ]%string
            ++ statistics_lines issues ++ details_lines issues ++ rest).
Proof.
  intros Hproc Hcode Hload.
  rewrite sort_issues_buckets. cbn.
  split; [reflexivity|]. split; [reflexivity|]. split; [reflexivity|].
  split; [|split; [|split]].
  - intros i b. unfold in_bucket. rewrite filter_In. split.
    + intros [Hin Hb]. split; [exact Hin|].
      destruct (bucket_of i), b; (reflexivity || discriminate Hb).
    + intros [Hin <-]. split; [exact Hin|]. destruct (bucket_of i); reflexivity.
  - apply buckets_permutation.
  - rewrite <- (Permutation_length (buckets_permutation issues)).
    rewrite !length_app. lia.
  - exact (show_dashboard_buckets_shown w p issues Hproc Hcode Hload).
Qed.

Lemma dashboard_buckets_partition_sample :
  exists rest,
    printed (trace create_issues.show_dashboard no_prs_world)
    = [ "============================================================";
        "🎤 voice-koereq Issue Dashboard";
        "============================================================";
        "📅 2025-06-02 10:13:12";
        "";
        "📊 統計";
        "  総Issue数: 3";
        "  ✅ 実装済み: 1 (33.3%)";
        "  🔄 実装中: 1";
        "  ⏳ 未着手: 1";
        "";
        "⏳ 未着手のIssue:";
        "  #  4 [F3] Transcribe";
        "";
        "🔄 実装中のIssue:";
        "  #  3 [F2] Record";
        "";
        "✅ 実装済みのIssue:";
        "  #  2 [F1] Launch";
        "" ]%string ++ rest.
Proof.
  destruct (dashboard_buckets_partition no_prs_world
              {| returncode := 0; stdout := "[...]"; stderr := "" |} sample_issues)
    as (_ & _ & _ & _ & _ & _ & Hshown).
  - reflexivity.
  - reflexivity.
  - reflexivity.
  - destruct (Hshown ltac:(discriminate)) as [rest Hrest].
    exists rest. rewrite Hrest. vm_compute. reflexivity.
Defined.

(** * Further properties of the scripts *)

(** ** scripts/check_progress.py: error paths *)




Lemma check_progress_after_scan (w : world) spec features r :
  spec_file w = Ok spec ->
  spec !! "features" = Some features ->
  check_progress.scan features [] [] w start = (r, start) ->
  run check_progress.main w
  = match r with
    | Ok (imp, pend) => (Ok tt, report (length features) imp pend)
    | Raise e => (Raise e, [])
    end.
Proof.
  intros Hfile Hfeat Hscan. unfold run, check_progress.main, check_progress.check_progress.
  unfold bind at 1, ask at 1. rewrite Hfile. unfold bind at 1, ret at 1.
  rewrite (bind_Ok _ _ _ _ _ _ (getitem_Some _ _ _ w start Hfeat)).
  unfold bind at 1. rewrite Hscan. destruct r as [[imp pend]|e]; [|reflexivity].
  rewrite (bind_Ok _ _ _ _ _ _ (getitem_Some _ _ _ w start Hfeat)).
  unfold len at 1 2.
  rewrite (bind_Ok _ _ _ _ _ _ (percentage_spec w _ _ start)).
  unfold report. destruct pend; reflexivity.
Qed.


Lemma scan_missing_id (w : world) features :
  Exists (fun f : feature => f !! "id" = None) features ->
  forall imp pend s,
    check_progress.scan features imp pend w s = (Raise (KeyError "id"), s).
Proof.
  induction features as [|f features IH]; intros Hex imp pend s.
  - inversion Hex.
  - cbn [check_progress.scan]. unfold bind, getitem, ask.
    destruct (f !! "id") as [id|] eqn:Hid; [|reflexivity].
    assert (Htail : Exists (fun f : feature => f !! "id" = None) features).
    { inversion Hex as [? ? Hhead|? ? Htail']; [congruence|exact Htail']. }
    unfold ret. destruct (path_exists w (check_progress.view_path id)); apply IH; exact Htail.
Qed.

(** X2: when any feature of the specification file, wherever it stands in
    the list, has no [id], the progress checker raises [KeyError('id')]
    and neither prints a line nor writes progress.json. *)
Theorem check_progress_missing_id (w : world) spec features :
  spec_file w = Ok spec ->
  spec !! "features" = Some features ->
  Exists (fun f : feature => f !! "id" = None) features ->
  run check_progress.main w = (Raise (KeyError "id"), []).
Proof.
  intros Hfile Hfeat Hex.
  exact (check_progress_after_scan w spec features _ Hfile Hfeat
           (scan_missing_id w features Hex [] [] start)).
Qed.

Lemma check_progress_missing_id_sample :
  run check_progress.main
    {| path_exists := fun _ => true;
       spec_file := Ok {[ "features" := [ ({[ "id" := "F1" ]} : feature);
                                          ({[ "name" := "Record" ]} : feature) ] ]};
       proc := fun _ _ => exited 0 "" "";
       loads_issues := fun _ => None;
       loads_prs := fun _ => None;
       now := "";
       argv := [];
       parse_int := fun _ => None;
       stdin_line := None |}
  = (Raise (KeyError "id"), []).
Proof.
  eapply check_progress_missing_id.
  - reflexivity.
  - reflexivity.
  - right. left. reflexivity.
Defined.

(** ** scripts/create_feature_issues.py: error paths *)

Lemma for_each_app {A} (l1 l2 : list A) (body : A -> M unit) w s :
  for_each (l1 ++ l2) body w s = bind (for_each l1 body) (fun _ => for_each l2 body) w s.
Proof.
  revert s. induction l1 as [|x l1 IH]; intros s; cbn [for_each app].
  - reflexivity.
  - unfold bind in *. destruct (body x w s) as [[[]|e] s']; [|reflexivity].
    apply IH.
Qed.

Lemma flat_map_singleton_map {A B} (f : A -> B) (l : list A) :
  flat_map (fun x => [ f x ]) l = map f l.
Proof. induction l; cbn; congruence. Qed.






Section LoopBefore.

Context {A B : Type}.
Variable related : A -> B -> Prop.
Variable body : A -> M unit.
Variable turn : world -> nat -> B -> list event.
Variable w : world.
Variable bound : nat.

Hypothesis body_turn_before :
  forall a b s,
    related a b ->
    (nruns s < bound)%nat ->
    body a w s
    = (Ok tt, {| events := events s ++ turn w (nruns s) b; nruns := (1 + nruns s)%nat |}).

(** A loop of one call per turn runs through its list as long as the
    calls stay below [bound]. *)
Lemma for_each_trace_before items items' :
  Forall2 related items items' ->
  forall s,
    (nruns s + length items' <= bound)%nat ->
    for_each items body w s
    = (Ok tt, {| events := events s ++ loop_trace 1 turn w (nruns s) items';
                 nruns := (1 * length items' + nruns s)%nat |}).
Proof.
  induction 1 as [|a b items items' Hab _ IH]; intros s Hbound.
  - cbn. rewrite app_nil_r. destruct s; reflexivity.
  - cbn [length] in Hbound. cbn [for_each].
    rewrite (bind_Ok _ _ _ _ _ _ (body_turn_before a b s Hab ltac:(lia))).
    rewrite IH by (cbn [nruns]; lia). cbn [events nruns loop_trace length].
    rewrite <- app_assoc. do 2 f_equal. lia.
Qed.

End LoopBefore.

Lemma create_issue_turn_at (w : world) f d s p :
  proc w (nruns s) (create_cmd d) = Exited p ->
  describes f d ->
  create_feature_issues.create_issue f w s
  = (Ok tt, {| events := events s ++ create_turn w (nruns s) d; nruns := (1 + nruns s)%nat |}).
Proof.
  intros Hp (Hid & Hname & Hdesc & Htype & Hprio).
  unfold create_feature_issues.create_issue.
  rewrite (bind_Ok _ _ _ _ _ _ (getitem_Some _ _ _ w s Hid)).
  rewrite (bind_Ok _ _ _ _ _ _ (getitem_Some _ _ _ w s Hname)).
  rewrite (bind_Ok _ _ _ _ _ _ (getitem_Some _ _ _ w s Hdesc)).
  rewrite (bind_Ok _ _ _ _ _ _ (getitem_Some _ _ _ w s Htype)).
  rewrite (bind_Ok _ _ _ _ _ _ (getitem_Some _ _ _ w s Hprio)).
  unfold create_turn, created_or_failed.
  change (create_feature_issues.issue_cmd _ _ _) with (create_cmd d).
  change (create_feature_issues.issue_title _ _) with ("[" +:+ d_id d +:+ "] " +:+ d_name d).
  step. rewrite Hp. destruct (returncode p =? 0); tidy.
Qed.

Lemma create_issue_spawn_failed (w : world) f d s msg :
  proc w (nruns s) (create_cmd d) = SpawnFailed msg ->
  describes f d ->
  create_feature_issues.create_issue f w s
  = (Raise (OSError msg),
     {| events := events s ++ [ ERun (create_cmd d) true (SpawnFailed msg) ];
        nruns := S (nruns s) |}).
Proof.
  intros Hp (Hid & Hname & Hdesc & Htype & Hprio).
  unfold create_feature_issues.create_issue.
  rewrite (bind_Ok _ _ _ _ _ _ (getitem_Some _ _ _ w s Hid)).
  rewrite (bind_Ok _ _ _ _ _ _ (getitem_Some _ _ _ w s Hname)).
  rewrite (bind_Ok _ _ _ _ _ _ (getitem_Some _ _ _ w s Hdesc)).
  rewrite (bind_Ok _ _ _ _ _ _ (getitem_Some _ _ _ w s Htype)).
  rewrite (bind_Ok _ _ _ _ _ _ (getitem_Some _ _ _ w s Hprio)).
  change (create_feature_issues.issue_cmd _ _ _) with (create_cmd d).
  step. rewrite Hp. reflexivity.
Qed.

(** X5: the issue creator catches a non-zero exit only.  When the CLI
    cannot be started for some feature, the [OSError] leaves the script:
    the features before it have had their call, the call that failed is
    the last one, nothing is printed for it, and the features after it
    get no issue. *)
Theorem issue_creator_spawn_failure (w : world) spec before d after msg :
  spec_file w = Ok spec ->
  Forall2 describes (default [] (spec !! "features")) (before ++ d :: after) ->
  (forall i cmd, (i < length before)%nat -> exists p, proc w i cmd = Exited p) ->
  proc w (length before) (create_cmd d) = SpawnFailed msg ->
  outcome create_feature_issues.main w = Raise (OSError msg)
  /\ commands (trace create_feature_issues.main w) = map create_cmd (before ++ [ d ])
  /\ length (printed (trace create_feature_issues.main w)) = (2 * length before)%nat.
Proof.
  intros Hfile Hds Hbefore Hfail.
  apply Forall2_app_inv_r in Hds as (fs1 & fs2 & Hfs1 & Hfs2 & Hsplit).
  inversion Hfs2 as [|f d' fs3 after' Hfd Hfs3]; subst.
  assert (Hturn : forall f d s, describes f d -> (nruns s < length before)%nat ->
            create_feature_issues.create_issue f w s
            = (Ok tt, {| events := events s ++ create_turn w (nruns s) d;
                         nruns := (1 + nruns s)%nat |})).
  { intros f' d' s Hfd' Hlt. destruct (Hbefore (nruns s) (create_cmd d') Hlt) as [p Hp].
    exact (create_issue_turn_at w f' d' s p Hp Hfd'). }
  assert (Hrun : run create_feature_issues.main w
                 = (Raise (OSError msg),
                    loop_trace 1 create_turn w 0 before
                      ++ [ ERun (create_cmd d) true (SpawnFailed msg) ])).
  { unfold run, create_feature_issues.main, create_feature_issues.create_feature_issues.
    unfold bind at 1, ask at 1. rewrite Hfile. unfold bind at 1, ret at 1.
    rewrite Hsplit, for_each_app. unfold bind at 1.
    rewrite (for_each_trace_before describes _ create_turn w (length before) Hturn
               _ _ Hfs1 start ltac:(cbn; lia)).
    cbn [for_each]. unfold bind at 1.
    rewrite (create_issue_spawn_failed w f d _ msg); [reflexivity| |exact Hfd].
    cbn [nruns start]. rewrite Nat.mul_1_l, Nat.add_0_r. exact Hfail. }
  unfold outcome, trace. rewrite Hrun. cbn [fst snd].
  split; [reflexivity|]. split.
  - rewrite commands_app, map_app.
    rewrite (commands_loop_trace 1 create_turn (fun d => [ create_cmd d ]) w
               (commands_create_turn w)).
    rewrite flat_map_singleton_map. reflexivity.
  - unfold printed. rewrite flat_map_app. cbn [flat_map app]. rewrite app_nil_r.
    clear Hrun Hsplit Hfs1 Hturn Hfail.
    assert (Hgen : forall l i, (i + length l <= length before)%nat ->
              length (flat_map (fun e => match e with EPrint line => [ line ] | _ => [] end)
                        (loop_trace 1 create_turn w i l)) = (2 * length l)%nat).
    { induction l as [|x l IH]; intros i Hi; [reflexivity|].
      cbn [loop_trace length] in *. rewrite flat_map_app, length_app, IH by lia.
      unfold create_turn, created_or_failed.
      destruct (Hbefore i (create_cmd x) ltac:(lia)) as [p ->].
      destruct (returncode p =? 0); cbn; lia. }
    apply Hgen. cbn. lia.
Qed.

Lemma issue_creator_spawn_failure_sample :
  outcome create_feature_issues.main cli_vanishes_world
  = Raise (OSError "[Errno 2] No such file or directory: 'gh'")
  /\ commands (trace create_feature_issues.main cli_vanishes_world)
     = map create_cmd (firstn 2 sample_descriptors)
  /\ length (printed (trace create_feature_issues.main cli_vanishes_world)) = 2%nat.
Proof.
  apply (issue_creator_spawn_failure cli_vanishes_world {[ "features" := sample_features ]}
           (firstn 1 sample_descriptors)
           {| d_id := "F2"; d_name := "Record"; d_description := "Voice recording";
              d_type := "audio_capture"; d_priority := "high" |}
           (skipn 2 sample_descriptors)).
  - reflexivity.
  - change (Forall2 describes sample_features sample_descriptors). repeat constructor.
  - intros [|i] cmd Hi; [eexists; reflexivity|cbn in Hi; lia].
  - reflexivity.
Defined.

(** ** scripts/create_issues.py: the milestone creator *)

(** X6: the milestone creator never looks at how a call ended: whenever
    the CLI can be started, it returns after three calls and prints the
    three "Created milestone" lines, whatever the exit statuses were. *)
Theorem create_milestone_always_reports_success (w : world) :
  exits w ->
  outcome create_issues.create_milestone w = Ok tt
  /\ printed (trace create_issues.create_milestone w)
     = [ "✅ Created milestone: MVP";
         "✅ Created milestone: Beta";
         "✅ Created milestone: Production" ]%string
  /\ map (fun cmd => nth 4 cmd EmptyString) (commands (trace create_issues.create_milestone w))
     = [ "title=MVP"; "title=Beta"; "title=Production" ]%string.
Proof.
  intros Hexits. unfold outcome, trace. rewrite (create_milestone_run w Hexits).
  repeat split.
Qed.

Lemma create_milestone_always_reports_success_sample :
  printed (trace create_issues.create_milestone failing_world)
  = [ "✅ Created milestone: MVP";
      "✅ Created milestone: Beta";
      "✅ Created milestone: Production" ]%string.
Proof.
  apply (create_milestone_always_reports_success failing_world).
  intros n cmd. eexists. reflexivity.
Defined.

(** ** scripts/sync_implementations.py *)

(** X7: one turn of the sync loop never raises: a git call that exits, with
    whatever status, is not tested for failure, and a git call that cannot
    be started is caught by the [except Exception] clause. *)
Theorem sync_branch_never_raises (w : world) entry s :
  fst (sync_implementations.sync_branch entry w s) = Ok tt.
Proof.
  destruct entry as [[branch feature_id] feature_name].
  unfold sync_implementations.sync_branch. step.
  destruct (proc w (nruns s) (sync_implementations.cmd_ios branch feature_id)) as [p|msg];
    cbn; [|reflexivity].
  destruct (returncode p =? 0); cbn;
    (destruct (proc w (S (nruns s)) (sync_implementations.cmd_android branch feature_id))
       as [q|msg]; cbn; [destruct (returncode q =? 0)|]; reflexivity).
Qed.

(** X8: when git cannot be started for the iOS checkout of a branch, the
    turn prints one error line naming the feature and the cause, and the
    Android checkout of that branch is not attempted. *)
Theorem sync_branch_spawn_failure (w : world) branch feature_id feature_name s msg :
  proc w (nruns s) (sync_implementations.cmd_ios branch feature_id) = SpawnFailed msg ->
  sync_implementations.sync_branch (branch, feature_id, feature_name) w s
  = (Ok tt,
     {| events :=
          events s
            ++ [ EPrint ("
🔄 Syncing " +:+ feature_id +:+ " (" +:+ feature_name +:+ ") from " +:+ branch);
                 ERun (sync_implementations.cmd_ios branch feature_id) true (SpawnFailed msg);
                 EPrint ("  ❌ Error syncing " +:+ feature_id +:+ ": " +:+ msg) ];
        nruns := S (nruns s) |}).
Proof.
  intros Hp. unfold sync_implementations.sync_branch. step. rewrite Hp. tidy.
Qed.

Lemma sync_branch_spawn_failure_sample :
  sync_implementations.sync_branch
    ("claude/issue-2-20250602_100108", "F1", "起動画面")%string git_vanishes_world
    {| events := []; nruns := 1 |}
  = (Ok tt,
     {| events :=
          [ EPrint "
🔄 Syncing F1 (起動画面) from claude/issue-2-20250602_100108";
            ERun (sync_implementations.cmd_ios "claude/issue-2-20250602_100108" "F1") true
                 (SpawnFailed "[Errno 2] No such file or directory: 'git'");
            EPrint "  ❌ Error syncing F1: [Errno 2] No such file or directory: 'git'" ];
        nruns := 2 |}).
Proof.
  apply (sync_branch_spawn_failure git_vanishes_world
           "claude/issue-2-20250602_100108" "F1" "起動画面"
           {| events := []; nruns := 1 |}).
  reflexivity.
Defined.

(** X9: whenever git can be started, the sync script runs the same eleven
    commands in the same order, whatever their exit statuses: it stages
    the whole tree with [git add .] even when every checkout failed, and
    it never commits, pushes or switches branch. *)
Theorem sync_runs_fixed_commands (w : world) :
  exits w ->
  commands (trace sync_implementations.main w) = sync_commands.
Proof.
  intros Hexits. unfold trace. rewrite (sync_run w Hexits). cbn [snd].
  change (ERun ?c ?b ?o :: ?l) with ([ ERun c b o ] ++ l).
  rewrite !commands_app.
  rewrite (commands_loop_trace 2 sync_turn _ w (commands_sync_turn w)).
  reflexivity.
Qed.

Lemma sync_runs_fixed_commands_sample :
  commands (trace sync_implementations.main failing_world) = sync_commands.
Proof.
  apply (sync_runs_fixed_commands failing_world).
  intros n cmd. eexists. reflexivity.
Defined.

(** ** scripts/trigger_claude_batch.py *)

Lemma sleeps_app t1 t2 : sleeps (t1 ++ t2) = sleeps t1 ++ sleeps t2.
Proof. unfold sleeps. apply flat_map_app. Qed.

Lemma successful_calls_app t1 t2 :
  successful_calls (t1 ++ t2) = (successful_calls t1 + successful_calls t2)%nat.
Proof. unfold successful_calls. rewrite List.filter_app, length_app. reflexivity. Qed.

Lemma trigger_loop_sleeps all w :
  exits w ->
  forall l i,
    sleeps (loop_trace 1 (trigger_turn all) w i l)
    = repeat 30 (if 1 <? len all
                 then successful_calls (loop_trace 1 (trigger_turn all) w i l)
                 else 0%nat).
Proof.
  intros Hexits. induction l as [|n l IH]; intros i.
  - cbn. destruct (1 <? len all); reflexivity.
  - cbn [loop_trace]. rewrite sleeps_app, successful_calls_app, IH.
    unfold trigger_turn.
    destruct (Hexits i (trigger_claude_batch.comment_cmd n)) as [p ->].
    unfold successful_calls at 1. cbn.
    destruct (returncode p =? 0); destruct (1 <? len all); reflexivity.
Qed.

(** X10: the batch trigger sleeps 30 seconds once for every comment call
    that succeeded, the last one included, when it was given more than one
    issue number, and never when it was given one: the time it spends
    waiting is 30 seconds times the number of successful calls. *)
Theorem trigger_sleeps_once_per_success (w : world) (issue_numbers : list Z) :
  exits w ->
  sleeps (trace (trigger_claude_batch.trigger_claude_on_issues issue_numbers) w)
  = repeat 30
      (if 1 <? len issue_numbers
       then successful_calls
              (trace (trigger_claude_batch.trigger_claude_on_issues issue_numbers) w)
       else 0%nat).
Proof.
  intros Hexits. unfold trace. rewrite (trigger_run w issue_numbers Hexits). cbn [snd].
  apply (trigger_loop_sleeps issue_numbers w Hexits).
Qed.

Lemma trigger_sleeps_once_per_success_sample :
  sleeps (trace (trigger_claude_batch.trigger_claude_on_issues [ 2; 3; 4 ]) sample_world)
  = [ 30; 30 ].
Proof.
  apply (trigger_sleeps_once_per_success sample_world [ 2; 3; 4 ]).
  intros [|n] cmd; eexists; reflexivity.
Defined.

Lemma is_unimplemented_spec i :
  trigger_claude_batch.is_unimplemented i
  = negb (has_label "implemented" i) && has_feature_label i.
Proof.
  unfold trigger_claude_batch.is_unimplemented, has_feature_label.
  change (map name (labels i)) with (create_issues.label_names i).
  rewrite str_in_has_label. f_equal.
  apply Bool.eq_iff_eq_true. rewrite !existsb_exists. split.
  - intros (l & Hin & Hfeature). unfold str_in in Hfeature.
    apply existsb_exists in Hfeature as (f & Hf & Heq). apply String.eqb_eq in Heq. subst f.
    exists l. split; [exact Hf|]. unfold has_label. apply existsb_exists.
    unfold create_issues.label_names in Hin. apply in_map_iff in Hin as (lbl & Hname & Hlbl).
    exists lbl. split; [exact Hlbl|]. apply String.eqb_eq. congruence.
  - intros (f & Hf & Hhas). unfold has_label in Hhas.
    apply existsb_exists in Hhas as (lbl & Hlbl & Heq). apply String.eqb_eq in Heq.
    exists (name lbl). split.
    + unfold create_issues.label_names. apply in_map. exact Hlbl.
    + unfold str_in. apply existsb_exists. exists f. split; [exact Hf|].
      apply String.eqb_eq. congruence.
Qed.

(** X11: when the issue list is fetched, the issues the batch trigger
    selects are, in listing order, exactly those that carry one of the
    feature labels and that the dashboard does not count as implemented;
    only the one listing call is made and nothing is printed. *)
Theorem unimplemented_issues_selection (w : world) p issues :
  proc w 0%nat trigger_claude_batch.issue_list_cmd = Exited p ->
  returncode p = 0 ->
  loads_issues w (stdout p) = Some issues ->
  exists selected,
    run trigger_claude_batch.get_unimplemented_issues w
    = (Ok (map number selected),
       [ ERun trigger_claude_batch.issue_list_cmd true (Exited p) ])
    /\ sublist selected issues
    /\ (forall i, In i selected
                  <-> In i issues /\ bucket_of i <> Implemented /\ has_feature_label i = true).
Proof.
  intros Hproc Hcode Hload.
  exists (filter (fun i => trigger_claude_batch.is_unimplemented i = true) issues).
  split; [|split].
  - unfold run, trigger_claude_batch.get_unimplemented_issues. step.
    cbn. rewrite Hproc. cbn. rewrite Hcode. cbn. rewrite Hload. reflexivity.
  - apply sublist_filter.
  - intros i. rewrite <- !list_elem_of_In, list_elem_of_filter, is_unimplemented_spec.
    unfold bucket_of. rewrite andb_true_iff, negb_true_iff.
    destruct (has_label "implemented" i); [|destruct (has_label "ready-to-implement" i)];
      intuition congruence.
Qed.

Lemma unimplemented_issues_selection_sample :
  exists selected,
    run trigger_claude_batch.get_unimplemented_issues declining_world
    = (Ok (map number selected),
       [ ERun trigger_claude_batch.issue_list_cmd true (exited 0 "[...]" "") ])
    /\ sublist selected sample_issues
    /\ (forall i, In i selected
                  <-> In i sample_issues /\ bucket_of i <> Implemented
                      /\ has_feature_label i = true).
Proof.
  apply (unimplemented_issues_selection declining_world
           {| returncode := 0; stdout := "[...]"; stderr := "" |} sample_issues);
    reflexivity.
Defined.

(** On the sample issues: #2 is implemented and left out. *)
Example unimplemented_issues_sample :
  fst (run trigger_claude_batch.get_unimplemented_issues declining_world) = Ok [ 3; 4 ].
Proof. vm_compute. reflexivity. Qed.

Lemma parse_numbers_fails (w : world) int parts :
  Exists (fun part => int (strip part) = None) parts ->
  forall s, trigger_claude_batch.parse_numbers int parts w s = (Raise ValueError, s).
Proof.
  induction parts as [|x parts IH]; intros Hex s.
  - inversion Hex.
  - cbn [trigger_claude_batch.parse_numbers].
    destruct (int (strip x)) as [n|] eqn:Hx; [|reflexivity].
    assert (Htail : Exists (fun part => int (strip part) = None) parts).
    { inversion Hex as [? ? Hhead|? ? Htail']; [congruence|exact Htail']. }
    unfold bind. rewrite (IH Htail s). reflexivity.
Qed.

Lemma parse_numbers_succeeds (w : world) int parts ns :
  Forall2 (fun part n => int (strip part) = Some n) parts ns ->
  forall s, trigger_claude_batch.parse_numbers int parts w s = (Ok ns, s).
Proof.
  induction 1 as [|x n parts ns Hx _ IH]; intros s; cbn [trigger_claude_batch.parse_numbers].
  - reflexivity.
  - rewrite Hx. unfold bind. rewrite IH. reflexivity.
Qed.

(** X12: when a part of the comma-separated argument is not a number, the
    batch trigger raises [ValueError] before it prints anything or posts a
    single comment, even if the parts before it were numbers. *)
Theorem trigger_rejects_bad_argument (w : world) script arg more :
  argv w = script :: arg :: more ->
  Exists (fun part => parse_int w (strip part) = None) (split_on "," arg) ->
  run trigger_claude_batch.main w = (Raise ValueError, []).
Proof.
  intros Hargv Hbad. unfold run, trigger_claude_batch.main.
  unfold bind at 1, ask at 1. rewrite Hargv.
  unfold bind at 1. unfold bind at 1, ask at 1.
  rewrite (parse_numbers_fails w _ _ Hbad). reflexivity.
Qed.

Lemma trigger_rejects_bad_argument_sample :
  run trigger_claude_batch.main misspelt_argument_world = (Raise ValueError, []).
Proof.
  apply (trigger_rejects_bad_argument misspelt_argument_world
           "trigger_claude_batch.py" "7, x8 ,9" []).
  - reflexivity.
  - right. left. reflexivity.
Defined.

(** X13: with the issue numbers given as an argument, the batch trigger
    neither lists the issues nor asks for confirmation: it runs exactly as
    [trigger_claude_on_issues] on the numbers read from the argument, each
    part stripped of surrounding white space, in the order given. *)
Theorem trigger_with_argument (w : world) script arg more ns :
  argv w = script :: arg :: more ->
  Forall2 (fun part n => parse_int w (strip part) = Some n) (split_on "," arg) ns ->
  run trigger_claude_batch.main w
  = run (trigger_claude_batch.trigger_claude_on_issues ns) w.
Proof.
  intros Hargv Hnums. unfold run, trigger_claude_batch.main.
  unfold bind at 1, ask at 1. rewrite Hargv.
  unfold bind at 1. unfold bind at 1, ask at 1.
  rewrite (parse_numbers_succeeds w _ _ ns Hnums). reflexivity.
Qed.

Lemma trigger_with_argument_sample :
  run trigger_claude_batch.main argument_world
  = run (trigger_claude_batch.trigger_claude_on_issues [ 7; 8; 9 ]) argument_world.
Proof.
  apply (trigger_with_argument argument_world "trigger_claude_batch.py" "7, 8 ,9" []).
  - reflexivity.
  - repeat constructor.
Defined.

(** The comments of the sample run go to issues 7, 8 and 9, in that
    order. *)
Example trigger_with_argument_commands :
  map (fun cmd => nth 3 cmd EmptyString) (commands (trace trigger_claude_batch.main argument_world))
  = [ "7"; "8"; "9" ]%string.
Proof. vm_compute. reflexivity. Qed.

(** X14: run without an argument, the batch trigger treats a failed issue
    listing as an empty one: it prints the failure, then "No unimplemented
    issues found", and leaves with exit status 0 without asking anything
    or posting a comment. *)
Theorem trigger_failed_listing (w : world) p :
  (length (argv w) <= 1)%nat ->
  proc w 0%nat trigger_claude_batch.issue_list_cmd = Exited p ->
  returncode p <> 0 ->
  run trigger_claude_batch.main w
  = (Raise (SystemExit 0),
     [ ERun trigger_claude_batch.issue_list_cmd true (Exited p);
       EPrint ("❌ Failed to fetch issues: " +:+ stderr p);
       EPrint "⚠️  No unimplemented issues found" ]).
Proof.
  intros Hargv Hproc Hcode. apply Z.eqb_neq in Hcode.
  unfold run, trigger_claude_batch.main, trigger_claude_batch.get_unimplemented_issues.
  unfold bind at 1, ask at 1.
  destruct (argv w) as [|script [|arg more]]; [| |cbn in Hargv; lia];
    step; cbn; rewrite Hproc; cbn; rewrite Hcode; reflexivity.
Qed.

Lemma trigger_failed_listing_sample :
  run trigger_claude_batch.main failing_world
  = (Raise (SystemExit 0),
     [ ERun trigger_claude_batch.issue_list_cmd true
            (exited 1 "" "fatal: unable to access remote");
       EPrint "❌ Failed to fetch issues: fatal: unable to access remote";
       EPrint "⚠️  No unimplemented issues found" ]).
Proof.
  apply (trigger_failed_listing failing_world
           {| returncode := 1; stdout := ""; stderr := "fatal: unable to access remote" |}).
  - cbn. lia.
  - reflexivity.
  - discriminate.
Defined.

(** Listing the issues makes one call and nothing else that counts as a
    call, however it ends. *)
Lemma get_unimplemented_issues_one_call (w : world) :
  exists r s,
    trigger_claude_batch.get_unimplemented_issues w start = (r, s)
    /\ commands (events s) = [ trigger_claude_batch.issue_list_cmd ].
Proof.
  unfold trigger_claude_batch.get_unimplemented_issues. step. cbn.
  destruct (proc w 0%nat trigger_claude_batch.issue_list_cmd) as [p|msg]; cbn.
  - destruct (returncode p =? 0); cbn.
    + destruct (loads_issues w (stdout p)); cbn; eexists _, _; split; reflexivity.
    + eexists _, _. split; reflexivity.
  - eexists _, _. split; reflexivity.
Qed.

(** X15: run without an argument, the batch trigger posts no comment
    unless the line read from the keyboard is "y" or "Y": whatever the
    listing returns and however the calls end, the listing is then the
    only subprocess call of the run. *)
Theorem trigger_needs_confirmation (w : world) :
  (length (argv w) <= 1)%nat ->
  (forall answer, stdin_line w = Some answer -> lower answer <> "y"%string) ->
  commands (trace trigger_claude_batch.main w) = [ trigger_claude_batch.issue_list_cmd ].
Proof.
  intros Hargv Hanswer.
  destruct (get_unimplemented_issues_one_call w) as (r & s & Hget & Hcalls).
  assert (Hmain : trace trigger_claude_batch.main w
                  = events (snd (bind
                      (bind trigger_claude_batch.get_unimplemented_issues
                         (fun issue_numbers =>
                            match issue_numbers with
                            | [] =>
                                bind (print "⚠️  No unimplemented issues found")
                                     (fun _ => raise (SystemExit 0))
                            | _ :: _ =>
                                bind (print ("📋 Found " +:+ str_int (len issue_numbers)
                                               +:+ " unimplemented issues: "
                                               +:+ repr_int_list issue_numbers))
                                  (fun _ =>
                                     bind (input "🤔 Trigger Claude on all these issues? (y/N): ")
                                       (fun confirm =>
                                          if negb (String.eqb (lower confirm) "y")
                                          then bind (print "❌ Cancelled")
                                                    (fun _ => raise (SystemExit 0))
                                          else ret issue_numbers))
                            end))
                      (fun issue_numbers =>
                         trigger_claude_batch.trigger_claude_on_issues issue_numbers)
                      w start))).
  { unfold trace, run, trigger_claude_batch.main.
    unfold bind at 1, ask at 1.
    destruct (argv w) as [|script [|arg more]]; [| |cbn in Hargv; lia];
      match goal with |- snd (let (_, _) := ?m in _) = events (snd ?m') =>
        change m' with m; destruct m; reflexivity end. }
  rewrite Hmain. unfold bind at 1 2. rewrite Hget.
  destruct r as [[|n numbers]|e]; [| |exact Hcalls].
  - step. cbn. rewrite commands_app, Hcalls. reflexivity.
  - unfold input. step. cbn.
    destruct (stdin_line w) as [answer|] eqn:Hline; cbn.
    + specialize (Hanswer answer eq_refl). apply String.eqb_neq in Hanswer.
      rewrite Hanswer. cbn. rewrite <- !app_assoc, commands_app, Hcalls. reflexivity.
    + rewrite <- !app_assoc, commands_app, Hcalls. reflexivity.
Qed.

Lemma trigger_needs_confirmation_sample :
  commands (trace trigger_claude_batch.main declining_world)
  = [ trigger_claude_batch.issue_list_cmd ].
Proof.
  apply (trigger_needs_confirmation declining_world).
  - cbn. lia.
  - intros answer Hline. injection Hline as <-. discriminate.
Defined.

(** What the declining user sees. *)
Example trigger_declined_console :
  run trigger_claude_batch.main declining_world
  = (Raise (SystemExit 0),
     [ ERun trigger_claude_batch.issue_list_cmd true (exited 0 "[...]" "");
       EPrint "📋 Found 2 unimplemented issues: [3, 4]";
       EInput "🤔 Trigger Claude on all these issues? (y/N): ";
       EPrint "❌ Cancelled" ]).
Proof. vm_compute. reflexivity. Qed.

(** ** scripts/create_issues.py: the dashboard on a non-empty list *)

Section PrintsOnly.

Variable P : string -> Prop.
Variable w : world.

Lemma prints_only_ret {A} (a : A) : prints_only P w (ret a).
Proof. intros s. exists a, []. cbn. rewrite app_nil_r. destruct s; auto. Qed.

Lemma prints_only_print line : P line -> prints_only P w (print line).
Proof. intros Hline s. exists tt, [ line ]. cbn. auto. Qed.

Lemma prints_only_bind {A B} (m : M A) (k : A -> M B) :
  prints_only P w m -> (forall a, prints_only P w (k a)) -> prints_only P w (bind m k).
Proof.
  intros Hm Hk s. destruct (Hm s) as (a & lines & Hrun & Hlines).
  destruct (Hk a {| events := events s ++ map EPrint lines; nruns := nruns s |})
    as (b & lines' & Hrun' & Hlines').
  exists b, (lines ++ lines'). split.
  - unfold bind. rewrite Hrun, Hrun'. cbn [events nruns].
    rewrite map_app, app_assoc. reflexivity.
  - apply Forall_app. auto.
Qed.

Lemma prints_only_for_each {A} (l : list A) (body : A -> M unit) :
  (forall x, prints_only P w (body x)) -> prints_only P w (for_each l body).
Proof.
  intros Hbody. induction l as [|x l IH]; cbn [for_each].
  - apply prints_only_ret.
  - apply prints_only_bind; [apply Hbody|]. intros _. exact IH.
Qed.

Lemma prints_only_when_nonempty {A} (l : list A) body :
  prints_only P w body -> prints_only P w (create_issues.when_nonempty l body).
Proof. intros Hbody. destruct l; [apply prints_only_ret|exact Hbody]. Qed.

End PrintsOnly.

Lemma not_failure_issue_line i : not_failure_line (create_issues.issue_line i).
Proof. reflexivity. Qed.

Lemma show_details_prints (w : world) b :
  prints_only not_failure_line w (create_issues.show_details b).
Proof.
  unfold create_issues.show_details.
  repeat first
    [ apply prints_only_bind; [|intros _]
    | apply prints_only_when_nonempty
    | apply prints_only_for_each; intros i
    | apply prints_only_print; reflexivity
    | apply prints_only_ret
    | match goal with |- prints_only _ _ (if ?c then _ else _) => destruct c end ].
Qed.

Lemma show_actions_prints (w : world) b :
  prints_only not_failure_line w (create_issues.show_actions b).
Proof.
  unfold create_issues.show_actions.
  repeat first
    [ apply prints_only_bind; [|intros _]
    | apply prints_only_print; reflexivity
    | apply prints_only_ret
    | match goal with |- prints_only _ _ (match ?l with _ => _ end) => destruct l end ].
Qed.

(** The pull-request block, entered after one call. *)
Lemma show_prs_after_one_call (w : world) q s :
  nruns s = 1%nat ->
  proc w 1%nat create_issues.pr_list_cmd = Exited q ->
  (returncode q = 0 -> loads_prs w (stdout q) <> None) ->
  exists lines,
    create_issues.show_prs w s
    = (Ok tt,
       {| events :=
            events s
              ++ EPrint "📝 最新のPR:"
              :: ERun create_issues.pr_list_cmd true (Exited q)
              :: map EPrint lines;
          nruns := 2 |})
    /\ Forall not_failure_line lines.
Proof.
  intros Hruns Hproc Hparse. unfold create_issues.show_prs.
  unfold bind at 1, print at 1, emit at 1. unfold bind at 1. unfold bind at 1.
  unfold subprocess_run at 1. cbn [events nruns]. rewrite Hruns, Hproc. cbn [andb].
  destruct (returncode q =? 0) eqn:Hcode.
  - apply Z.eqb_eq in Hcode. specialize (Hparse Hcode).
    unfold bind at 1, ask at 1.
    destruct (loads_prs w (stdout q)) as [prs|]; [|congruence].
    assert (Hloop : prints_only not_failure_line w
              (for_each prs (fun pr =>
                 print ("  " +:+ (if String.eqb (pr_state pr) "OPEN" then "🟢" else "🟣")
                          +:+ " PR #" +:+ format_d 3 (pr_number pr) +:+ " " +:+ pr_title pr)))).
    { apply prints_only_for_each. intros pr. apply prints_only_print. reflexivity. }
    match goal with |- context [for_each prs ?body w ?s1] =>
      destruct (Hloop s1) as ([] & lines & Hrun & Hlines) end.
    rewrite Hrun. exists (lines ++ [ EmptyString ]). split.
    + step. cbn. rewrite <- !app_assoc, map_app. reflexivity.
    + apply Forall_app. split; [exact Hlines|]. repeat constructor.
  - exists [ EmptyString ]. split; [step; tidy|repeat constructor].
Qed.

Lemma commands_map_EPrint lines : commands (map EPrint lines) = [].
Proof. induction lines; [reflexivity|exact IHlines]. Qed.

(** The whole trace of the dashboard on a non-empty issue list. *)
Lemma show_dashboard_nonempty_run (w : world) p q issues :
  proc w 0%nat create_issues.issue_list_cmd = Exited p ->
  returncode p = 0 ->
  loads_issues w (stdout p) = Some issues ->
  issues <> [] ->
  proc w 1%nat create_issues.pr_list_cmd = Exited q ->
  (returncode q = 0 -> loads_prs w (stdout q) <> None) ->
  exists details prs actions,
    run create_issues.show_dashboard w
    = (Ok tt,
       map EPrint [ str_repeat "=" 60; "🎤 voice-koereq Issue Dashboard"; str_repeat "=" 60;
                    "📅 " +:+ now w; "" ]%string
         ++ [ ERun create_issues.issue_list_cmd true (Exited p) ]
         ++ map EPrint
              [ "📊 統計";
                "  総Issue数: " +:+ str_int (len issues);
                "  ✅ 実装済み: " +:+ str_int (len (in_bucket Implemented issues))
                  +:+ " (" +:+ format_1f
                                 (float_of_int (len (in_bucket Implemented issues))
                                  / float_of_int (len issues) * 100)%float
                  +:+ "%)";
                "  🔄 実装中: " +:+ str_int (len (in_bucket ReadyToImplement issues));
                "  ⏳ 未着手: " +:+ str_int (len (in_bucket NotStarted issues));
                "" ]%string
         ++ map EPrint details
         ++ [ EPrint "📝 最新のPR:"; ERun create_issues.pr_list_cmd true (Exited q) ]
         ++ map EPrint prs
         ++ map EPrint actions)
    /\ Forall not_failure_line details
    /\ Forall not_failure_line prs
    /\ Forall not_failure_line actions.
Proof.
  intros Hproc Hcode Hload Hne Hpr Hparse.
  unfold run, create_issues.show_dashboard.
  unfold bind at 1, print at 1, emit at 1. unfold bind at 1, print at 1, emit at 1.
  unfold bind at 1, print at 1, emit at 1.
  unfold bind at 1. unfold bind at 1, ask at 1. unfold print at 1, emit at 1.
  unfold bind at 1, print at 1, emit at 1.
  unfold bind at 1, subprocess_run at 1. cbn [events nruns start app]. rewrite Hproc.
  cbn [andb]. rewrite Hcode. cbn [Z.eqb negb].
  unfold bind at 1, ask at 1. rewrite Hload.
  rewrite sort_issues_buckets.
  rewrite (bind_Ok _ _ _ _ _ _ (show_statistics_nonempty w issues _ _ Hne)).
  cbn [create_issues.implemented create_issues.ready_to_implement create_issues.not_started
       events nruns].
  match goal with |- context [bind (create_issues.show_details ?b) _ w ?s] =>
    destruct (show_details_prints w b s) as ([] & details & Hdetails & Pdetails) end.
  rewrite (bind_Ok _ _ _ _ _ _ Hdetails). cbn [events nruns].
  match goal with |- context [bind create_issues.show_prs _ w ?s] =>
    destruct (show_prs_after_one_call w q s eq_refl Hpr Hparse) as (prs & Hprs & Pprs) end.
  rewrite (bind_Ok _ _ _ _ _ _ Hprs). cbn [events nruns].
  match goal with |- context [create_issues.show_actions ?b w ?s] =>
    destruct (show_actions_prints w b s) as ([] & actions & Hactions & Pactions) end.
  rewrite Hactions. cbn [events nruns].
  exists details, prs, actions. split; [|auto].
  f_equal. cbn [map app]. rewrite <- !app_assoc. cbn [app]. reflexivity.
Qed.

(** X16: on a non-empty issue list, when the pull-request listing is
    started and exits and, if it exits with status 0, its output parses,
    the dashboard runs to its end; this includes a pull-request listing
    that exits with a non-zero status.  It then makes exactly its two
    calls, prints the total and the sizes of the buckets, and none of its
    lines is a failure message, so a pull-request listing that failed
    with a non-zero status goes unreported. *)
Theorem dashboard_completes_on_nonempty_list (w : world) p q issues :
  proc w 0%nat create_issues.issue_list_cmd = Exited p ->
  returncode p = 0 ->
  loads_issues w (stdout p) = Some issues ->
  issues <> [] ->
  proc w 1%nat create_issues.pr_list_cmd = Exited q ->
  (returncode q = 0 -> loads_prs w (stdout q) <> None) ->
  outcome create_issues.show_dashboard w = Ok tt
  /\ commands (trace create_issues.show_dashboard w)
     = [ create_issues.issue_list_cmd; create_issues.pr_list_cmd ]
  /\ Forall not_failure_line (printed (trace create_issues.show_dashboard w))
  /\ In ("  総Issue数: " +:+ str_int (len issues))
        (printed (trace create_issues.show_dashboard w))
  /\ In ("  🔄 実装中: " +:+ str_int (len (in_bucket ReadyToImplement issues)))
        (printed (trace create_issues.show_dashboard w))
  /\ In ("  ⏳ 未着手: " +:+ str_int (len (in_bucket NotStarted issues)))
        (printed (trace create_issues.show_dashboard w)).
Proof.
  intros Hproc Hcode Hload Hne Hpr Hparse.
  destruct (show_dashboard_nonempty_run w p q issues Hproc Hcode Hload Hne Hpr Hparse)
    as (details & prs & actions & Hrun & Pdetails & Pprs & Pactions).
  unfold outcome, trace. rewrite Hrun. cbn [fst snd].
  split; [reflexivity|]. split; [|split; [|split; [|split]]].
  - rewrite !commands_app, !commands_map_EPrint. reflexivity.
  - rewrite !printed_app, !printed_map_EPrint.
    repeat (apply Forall_app; split); try assumption; repeat constructor.
  - rewrite !printed_app, !printed_map_EPrint.
    apply in_or_app. right. apply in_or_app. right. apply in_or_app. left.
    right. left. reflexivity.
  - rewrite !printed_app, !printed_map_EPrint.
    apply in_or_app. right. apply in_or_app. right. apply in_or_app. left.
    do 3 right. left. reflexivity.
  - rewrite !printed_app, !printed_map_EPrint.
    apply in_or_app. right. apply in_or_app. right. apply in_or_app. left.
    do 4 right. left. reflexivity.
Qed.

Lemma dashboard_completes_on_nonempty_list_sample :
  outcome create_issues.show_dashboard no_prs_world = Ok tt
  /\ commands (trace create_issues.show_dashboard no_prs_world)
     = [ create_issues.issue_list_cmd; create_issues.pr_list_cmd ].
Proof.
  destruct (dashboard_completes_on_nonempty_list no_prs_world
              {| returncode := 0; stdout := "[...]"; stderr := "" |}
              {| returncode := 1; stdout := ""; stderr := "HTTP 502" |} sample_issues)
    as (Hreturns & Hcalls & _).
  - reflexivity.
  - reflexivity.
  - reflexivity.
  - discriminate.
  - reflexivity.
  - discriminate.
  - split; [exact Hreturns|exact Hcalls].
Defined.

(** What the sample dashboard shows. *)
Example dashboard_sample_console :
  printed (trace create_issues.show_dashboard no_prs_world)
  = [ "============================================================";
      "🎤 voice-koereq Issue Dashboard";
      "============================================================";
      "📅 2025-06-02 10:13:12";
      "";
      "📊 統計";
      "  総Issue数: 3";
      "  ✅ 実装済み: 1 (33.3%)";
      "  🔄 実装中: 1";
      "  ⏳ 未着手: 1";
      "";
      "⏳ 未着手のIssue:";
      "  #  4 [F3] Transcribe";
      "";
      "🔄 実装中のIssue:";
      "  #  3 [F2] Record";
      "";
      "✅ 実装済みのIssue:";
      "  #  2 [F1] Launch";
      "";
      "📝 最新のPR:";
      "";
      "💡 次のアクション:";
      "  1. 未着手のIssueに ready-to-implement ラベルを付けて実装開始";
      "     gh issue edit 4 --add-label ready-to-implement";
      "  2. 実装中のIssueの進捗確認";
      "     gh issue view 3";
      "  3. 全Issueを一括実装";
      "     gh workflow run '🚀 Batch Issue Implementation'";
      "";
      "============================================================" ]%string.
Proof. vm_compute. reflexivity. Qed.
